(** * kiwi: the yum package manager backend

    A shallow embedding of [kiwi/package_manager/yum.py]
    (class [PackageManagerYum]) and the properties of its request queue,
    command synthesis, deletion filter, policy toggles and output matchers.

    The class talks to four collaborators that live in other modules of
    kiwi: [Command.run], [Command.call], [Path.which] and
    [root_bind.move_to_root].  They are taken as parameters (record
    [World]); every call to one of them is written to a trace together with
    the answer it gave, so that statements can speak about the commands
    that were executed and in which order. *)

From Stdlib Require Import String Ascii List Bool Arith Lia.
From stdpp Require Import base option list strings gmap.
Import ListNotations.

(** ** Data model *)

(** A subprocess environment, a Python [dict] from variable name to value. *)
Abbreviation Env := (gmap string string).

(** The exceptions that can travel through the methods of the class.
    [KiwiRequestError] is the one the class raises itself; [CommandFailure]
    stands for whatever the command execution collaborator raises;
    [ValueError] is what [list.remove] raises for a missing element. *)
Inductive Exception : Type :=
| KiwiRequestError (message : string)
| CommandFailure (message : string)
| ValueError (message : string).

(** The result of a method call: a return value or a raised exception. *)
Inductive Outcome (A : Type) : Type :=
| Returned (value : A)
| Raised (e : Exception).
Arguments Returned {A} value.
Arguments Raised {A} e.

(** [os.F_OK], [os.R_OK], [os.W_OK], [os.X_OK]. *)
Inductive AccessMode : Type := F_OK | R_OK | W_OK | X_OK.

(** One interaction with a collaborator, with the answer it gave. *)
Inductive Event : Type :=
| PathWhich (filename : string) (custom_env : option Env)
            (access_mode : AccessMode) (found : option string)
| CommandRun (command : list string) (failure : option string)
| CommandCall (command : list string) (custom_env : Env)
              (failure : option string).

Abbreviation Trace := (list Event).

(** The dictionary returned by [repository.runtime_config()]. *)
Record RuntimeConfig : Type := {
  rc_yum_args : list string;
  rc_command_env : Env
}.

(** The attributes of a [PackageManagerYum] object. *)
Record Instance : Type := {
  repository : RuntimeConfig;
  root_dir : string;
  custom_args : list string;
  yum_args : list string;
  command_env : Env;
  package_requests : list string;
  collection_requests : list string;
  exclude_requests : list string
}.

Definition set_custom_args (v : list string) (o : Instance) : Instance :=
  {| repository := repository o; root_dir := root_dir o;
     custom_args := v;
     yum_args := yum_args o; command_env := command_env o;
     package_requests := package_requests o;
     collection_requests := collection_requests o;
     exclude_requests := exclude_requests o |}.

Definition set_runtime (args : list string) (env : Env) (o : Instance)
  : Instance :=
  {| repository := repository o; root_dir := root_dir o;
     custom_args := custom_args o;
     yum_args := args; command_env := env;
     package_requests := package_requests o;
     collection_requests := collection_requests o;
     exclude_requests := exclude_requests o |}.

Definition set_package_requests (v : list string) (o : Instance) : Instance :=
  {| repository := repository o; root_dir := root_dir o;
     custom_args := custom_args o;
     yum_args := yum_args o; command_env := command_env o;
     package_requests := v;
     collection_requests := collection_requests o;
     exclude_requests := exclude_requests o |}.

Definition set_collection_requests (v : list string) (o : Instance)
  : Instance :=
  {| repository := repository o; root_dir := root_dir o;
     custom_args := custom_args o;
     yum_args := yum_args o; command_env := command_env o;
     package_requests := package_requests o;
     collection_requests := v;
     exclude_requests := exclude_requests o |}.

Definition set_exclude_requests (v : list string) (o : Instance) : Instance :=
  {| repository := repository o; root_dir := root_dir o;
     custom_args := custom_args o;
     yum_args := yum_args o; command_env := command_env o;
     package_requests := package_requests o;
     collection_requests := collection_requests o;
     exclude_requests := v |}.

(** The object together with the interactions that happened so far
    (oldest first). *)
Record Machine : Type := {
  self : Instance;
  trace : Trace
}.

Definition on_self (f : Instance -> Instance) (m : Machine) : Machine :=
  {| self := f (self m); trace := trace m |}.

Definition log (e : Event) (m : Machine) : Machine :=
  {| self := self m; trace := trace m ++ [e] |}.

(** ** Computations: state passing with exceptions

    A raised exception keeps the state reached so far, as in Python, where
    the mutations made before a [raise] stay. *)

Definition M (A : Type) : Type := Machine -> Outcome A * Machine.

Definition ret {A} (a : A) : M A := fun m => (Returned a, m).

Definition raise {A} (e : Exception) : M A := fun m => (Raised e, m).

Definition bind {A B} (c : M A) (k : A -> M B) : M B := fun m =>
  match c m with
  | (Returned a, m') => k a m'
  | (Raised e, m') => (Raised e, m')
  end.

(** [try: body except Exception: handler]. *)
Definition try_except {A} (body : M A) (handler : Exception -> M A) : M A :=
  fun m =>
    match body m with
    | (Returned a, m') => (Returned a, m')
    | (Raised e, m') => handler e m'
    end.

Definition get {A} (f : Instance -> A) : M A := fun m => (Returned (f (self m)), m).

Definition modify (f : Instance -> Instance) : M unit :=
  fun m => (Returned tt, on_self f m).

Declare Scope pm_scope.
Delimit Scope pm_scope with pm.
Notation "x <- c ;; k" := (bind c (fun x => k))
  (at level 100, c at next level, right associativity) : pm_scope.
Notation "c ;; k" := (bind c (fun _ => k))
  (at level 100, right associativity) : pm_scope.
Local Open Scope pm_scope.

(** [for x in items: body x]. *)
Fixpoint for_each {A} (items : list A) (body : A -> M unit) : M unit :=
  match items with
  | [] => ret tt
  | x :: rest => body x ;; for_each rest body
  end.

(** A [for] loop that carries a local variable [acc] through its body. *)
Fixpoint for_fold {A B} (items : list A) (acc : B) (body : B -> A -> M B)
  : M B :=
  match items with
  | [] => ret acc
  | x :: rest => acc' <- body acc x ;; for_fold rest acc' body
  end.

(** ** Python built-ins used by the class *)

(** [sep.join(parts)]. *)
Definition join (sep : string) (parts : list string) : string :=
  String.concat sep parts.

(** The one-character string holding a double quote. *)
Definition dquote : string := String "034"%char EmptyString.

(** [x in l] for a list of strings. *)
Definition contains (x : string) (l : list string) : bool :=
  bool_decide (x ∈ l).

(** [l.remove(x)]: drops the first element equal to [x]; [None] stands for
    the [ValueError] raised when there is none. *)
Fixpoint list_remove (x : string) (l : list string) : option (list string) :=
  match l with
  | [] => None
  | y :: rest =>
      if decide (y = x) then Some rest
      else match list_remove x rest with
           | Some rest' => Some (y :: rest')
           | None => None
           end
  end.

(** Truth value of a list: non-empty. *)
Definition nonempty {A} (l : list A) : bool :=
  match l with [] => false | _ :: _ => true end.

(** Truth value of a string: non-empty. *)
Definition str_true (s : string) : bool :=
  match s with EmptyString => false | String _ _ => true end.

(** Truth value of an optional string ([None] or a string). *)
Definition opt_str_true (o : option string) : bool :=
  match o with None => false | Some s => str_true s end.

(** ** The collaborators *)

(** What a collaborator answers: a value, or the message of the exception
    it raises. *)
Inductive Answer (A : Type) : Type :=
| Done (value : A)
| Failed (message : string).
Arguments Done {A} value.
Arguments Failed {A} message.

Definition failure_of {A} (a : Answer A) : option string :=
  match a with Done _ => None | Failed msg => Some msg end.

(** The collaborators of the class.  Each answer may depend on everything
    that happened before (the trace), which covers a file system and a
    package database that change while commands run.  [Handle] is what
    [Command.call] returns. *)
Record World (Handle : Type) : Type := {
  path_which : Trace -> string -> option Env -> AccessMode -> option string;
  command_run : Trace -> list string -> Answer unit;
  command_call : Trace -> list string -> Env -> Answer Handle;
  move_to_root : list string -> list string
}.
Arguments path_which {Handle} _ _ _ _ _.
Arguments command_run {Handle} _ _ _.
Arguments command_call {Handle} _ _ _ _.
Arguments move_to_root {Handle} _ _.

(** The strong-requires policy flag of yum. *)
Definition strong_flag : string := "--setopt=requires_policy=strong".

(** The message of the request error of [process_delete_requests]. *)
Definition none_installed : string :=
  "None of the requested packages to delete are installed".

(** The fixed options of the removal command. *)
Definition delete_options : list string :=
  ["--nodeps"; "--allmatches"; "--noscripts"].

(** ** The class *)

Section PackageManagerYum.

Context {Handle : Type} (w : World Handle).

(** [Path.which(filename=.., custom_env=.., access_mode=..)]. *)
Definition Path_which (filename : string) (custom_env : option Env)
    (access_mode : AccessMode) : M (option string) := fun m =>
  let found := path_which w (trace m) filename custom_env access_mode in
  (Returned found, log (PathWhich filename custom_env access_mode found) m).

(** [Command.run(command)]: raises when the command fails. *)
Definition Command_run (command : list string) : M unit := fun m =>
  let a := command_run w (trace m) command in
  let m' := log (CommandRun command (failure_of a)) m in
  match a with
  | Done _ => (Returned tt, m')
  | Failed msg => (Raised (CommandFailure msg), m')
  end.

(** [Command.call(command, custom_env)]. *)
Definition Command_call (command : list string) (custom_env : Env)
  : M Handle := fun m =>
  let a := command_call w (trace m) command custom_env in
  let m' := log (CommandCall command custom_env (failure_of a)) m in
  match a with
  | Done h => (Returned h, m')
  | Failed msg => (Raised (CommandFailure msg), m')
  end.

(** [post_init(custom_args=None)]: [not custom_args] holds for [None] and
    for the empty list. *)
Definition post_init (args : option (list string)) (o : Instance) : Instance :=
  let o1 :=
    match args with
    | Some l => if nonempty l then set_custom_args l o else set_custom_args [] o
    | None => set_custom_args [] o
    end in
  let runtime_config := repository o1 in
  set_runtime (rc_yum_args runtime_config) (rc_command_env runtime_config) o1.

Definition request_package (name : string) : M unit :=
  modify (fun o => set_package_requests (package_requests o ++ [name]) o).

Definition request_collection (name : string) : M unit :=
  modify (fun o =>
    set_collection_requests
      (collection_requests o ++ [dquote +:+ name +:+ dquote]) o).

Definition request_product (name : string) : M unit := ret tt.

Definition request_package_exclusion (name : string) : M unit :=
  modify (fun o => set_exclude_requests (exclude_requests o ++ [name]) o).

(** Modelled from the spec: [cleanup_requests] is a method of the base
    class [PackageManagerBase] in [kiwi/package_manager/base.py], whose
    source is not at hand; it "empties all three lists unconditionally;
    no side effects beyond that". *)
Definition cleanup_requests : M unit :=
  modify (fun o =>
    set_exclude_requests []
      (set_collection_requests [] (set_package_requests [] o))).

Definition _get_yum_binary_name (root : option string) : M string :=
  let yum_binary := "yum" in
  let yum_search_env : option Env :=
    match root with
    | Some r =>
        if str_true r
        then Some {[ "PATH" := join "/" [r; "usr"; "bin"] ]}
        else None
    | None => None
    end in
  found <- Path_which "yum-deprecated" yum_search_env X_OK ;;
  if opt_str_true found then ret "yum-deprecated" else ret yum_binary.

(** The list [bash_command] built by [process_install_requests_bootstrap]. *)
Definition bootstrap_bash_command (yum : string) (o : Instance) : list string :=
  let bash_command :=
    [yum] ++ yum_args o ++ ["--installroot"; root_dir o]
      ++ custom_args o ++ ["install"] ++ package_requests o in
  if nonempty (collection_requests o)
  then bash_command ++
       ["&&"; yum] ++ yum_args o ++ ["--installroot"; root_dir o]
         ++ custom_args o ++ ["groupinstall"] ++ collection_requests o
  else bash_command.

Definition process_install_requests_bootstrap : M Handle :=
  yum <- _get_yum_binary_name None ;;
  args <- get yum_args ;;
  Command_run ([yum] ++ args ++ ["makecache"]) ;;
  o <- get id ;;
  let bash_command := bootstrap_bash_command yum o in
  cleanup_requests ;;
  env <- get command_env ;;
  Command_call ["bash"; "-c"; join " " bash_command] env.

(** The list [bash_command] built by [process_install_requests]. *)
Definition chroot_bash_command (yum : string) (chroot_yum_args : list string)
    (o : Instance) : list string :=
  let bash_command :=
    ["chroot"; root_dir o; yum] ++ chroot_yum_args ++ custom_args o
      ++ ["install"] ++ package_requests o in
  if nonempty (collection_requests o)
  then bash_command ++
       ["&&"; "chroot"; root_dir o; yum] ++ chroot_yum_args
         ++ custom_args o ++ ["groupinstall"] ++ collection_requests o
  else bash_command.

Definition process_install_requests : M Handle :=
  root <- get root_dir ;;
  yum <- _get_yum_binary_name (Some root) ;;
  excludes <- get exclude_requests ;;
  (if nonempty excludes
   then for_each excludes (fun package =>
          modify (fun o =>
            set_custom_args (custom_args o ++ ["--exclude=" +:+ package]) o))
   else ret tt) ;;
  root <- get root_dir ;;
  Command_run ["chroot"; root; "rpm"; "--rebuilddb"] ;;
  o <- get id ;;
  let chroot_yum_args := move_to_root w (yum_args o) in
  let bash_command := chroot_bash_command yum chroot_yum_args o in
  cleanup_requests ;;
  env <- get command_env ;;
  Command_call ["bash"; "-c"; join " " bash_command] env.

Definition process_delete_requests (force : bool) : M Handle :=
  requests <- get package_requests ;;
  delete_items <-
    for_fold requests [] (fun delete_items delete_item =>
      try_except
        (root <- get root_dir ;;
         Command_run ["chroot"; root; "rpm"; "-q"; delete_item] ;;
         ret (delete_items ++ [delete_item]))
        (fun _ => ret delete_items)) ;;
  if negb (nonempty delete_items)
  then raise (KiwiRequestError none_installed)
  else
    cleanup_requests ;;
    o <- get id ;;
    Command_call
      (["chroot"; root_dir o; "rpm"; "-e"] ++ delete_options ++ delete_items)
      (command_env o).

Definition update : M Handle :=
  root <- get root_dir ;;
  yum <- _get_yum_binary_name (Some root) ;;
  o <- get id ;;
  let chroot_yum_args := move_to_root w (yum_args o) in
  Command_call
    (["chroot"; root_dir o; yum] ++ chroot_yum_args ++ custom_args o
       ++ ["upgrade"])
    (command_env o).

Definition process_only_required : M unit :=
  args <- get custom_args ;;
  if negb (contains strong_flag args)
  then modify (set_custom_args (args ++ [strong_flag]))
  else ret tt.

Definition process_plus_recommended : M unit :=
  args <- get custom_args ;;
  if contains strong_flag args
  then match list_remove strong_flag args with
       | Some args' => modify (set_custom_args args')
       | None => raise (ValueError "list.remove(x): x not in list")
       end
  else ret tt.

Definition database_consistent : M bool :=
  try_except
    (root <- get root_dir ;;
     Command_run ["chroot"; root; "rpmdb"; "--initdb"] ;;
     ret true)
    (fun _ => ret false).

Definition dump_reload_package_database (version : nat) : M unit := ret tt.

End PackageManagerYum.

(** ** Regular expressions

    The output matchers build a pattern by string concatenation, escape
    the package name with [re.escape] and hand the pattern to [re.match].
    [Re] models the fragment of Python's [re] these patterns live in:
    literal characters, backslash escapes of characters that are not
    letters or digits, the dot, and the star.  A pattern outside the
    fragment compiles to [None]. *)

Module Re.

(** The characters [re.escape] puts a backslash before (Python 3.7 and
    later): [()[]{}?*+-|^$\.&~#], space, tab, newline, carriage return,
    vertical tab and form feed. *)
Definition special_chars : list ascii :=
  ["("; ")"; "["; "]"; "{"; "}"; "?"; "*"; "+"; "-"; "|"; "^"; "$";
   "\"; "."; "&"; "~"; "#"; " "; "009"; "010"; "013"; "011"; "012"]%char.

Definition is_special (c : ascii) : bool :=
  existsb (Ascii.eqb c) special_chars.

(** [re.escape(s)]. *)
Fixpoint escape (s : string) : string :=
  match s with
  | EmptyString => EmptyString
  | String c rest =>
      if is_special c
      then String "\"%char (String c (escape rest))
      else String c (escape rest)
  end.

(** ASCII letters and digits: after a backslash they have a meaning of
    their own (classes, back references), which the fragment leaves out. *)
Definition is_alnum (c : ascii) : bool :=
  let n := nat_of_ascii c in
  ((48 <=? n) && (n <=? 57)) || ((65 <=? n) && (n <=? 90))
  || ((97 <=? n) && (n <=? 122)).

(** Characters with a meaning in a pattern that the fragment leaves out. *)
Definition unsupported_chars : list ascii :=
  ["["; "{"; "("; ")"; "+"; "?"; "^"; "$"; "|"]%char.

Definition is_unsupported (c : ascii) : bool :=
  existsb (Ascii.eqb c) unsupported_chars.

Inductive Token : Type :=
| TLit (c : ascii)
| TDot
| TStar.

(** Reading the pattern: escapes are resolved to literal characters. *)
Fixpoint lex (p : string) : option (list Token) :=
  match p with
  | EmptyString => Some []
  | String c rest =>
      if Ascii.eqb c "\" then
        match rest with
        | EmptyString => None
        | String d rest' =>
            if is_alnum d then None else cons (TLit d) <$> lex rest'
        end
      else if Ascii.eqb c "." then cons TDot <$> lex rest
      else if Ascii.eqb c "*" then cons TStar <$> lex rest
      else if is_unsupported c then None
      else cons (TLit c) <$> lex rest
  end.

(** What matches one character. *)
Inductive Atom : Type :=
| Lit (c : ascii)
| AnyChar.

(** An atom, or an atom under a star. *)
Inductive Piece : Type :=
| One (a : Atom)
| Star (a : Atom).

Abbreviation Regex := (list Piece).

(** Attaching each star to the atom before it; a star with no atom before
    it is an error ("nothing to repeat", "multiple repeat"). *)
Fixpoint group (ts : list Token) : option Regex :=
  match ts with
  | [] => Some []
  | TStar :: _ => None
  | TLit c :: TStar :: rest => cons (Star (Lit c)) <$> group rest
  | TDot :: TStar :: rest => cons (Star AnyChar) <$> group rest
  | TLit c :: rest => cons (One (Lit c)) <$> group rest
  | TDot :: rest => cons (One AnyChar) <$> group rest
  end.

(** [re.compile(p)]. *)
Definition compile (p : string) : option Regex :=
  match lex p with
  | Some ts => group ts
  | None => None
  end.

Definition newline : ascii := "010"%char.

(** The dot matches every character but a newline (no [DOTALL] flag). *)
Definition atom_matches (a : Atom) (c : ascii) : bool :=
  match a with
  | Lit d => Ascii.eqb c d
  | AnyChar => negb (Ascii.eqb c newline)
  end.

(** Is there a match of [r] that starts at the beginning of [s]?  The
    match need not reach the end of [s]. *)
Fixpoint match_here (r : Regex) (s : string) : bool :=
  match r with
  | [] => true
  | One a :: r' =>
      match s with
      | EmptyString => false
      | String c s' => atom_matches a c && match_here r' s'
      end
  | Star a :: r' =>
      (fix star (s : string) : bool :=
         match_here r' s ||
         match s with
         | EmptyString => false
         | String c s' => atom_matches a c && star s'
         end) s
  end.

(** [re.match(p, s)]: [Some true] when a match object is returned,
    [Some false] when the result is [None]; [None] when the pattern is
    outside the fragment. *)
Definition re_match (p s : string) : option bool :=
  match compile p with
  | Some r => Some (match_here r s)
  | None => None
  end.

End Re.

(** The tokens of a text taken literally, one per character. *)
Fixpoint literal_tokens (s : string) : list Re.Token :=
  match s with
  | EmptyString => []
  | String c rest => Re.TLit c :: literal_tokens rest
  end.

(** The regular expression that matches a text literally. *)
Fixpoint literal (s : string) : Re.Regex :=
  match s with
  | EmptyString => []
  | String c rest => Re.One (Re.Lit c) :: literal rest
  end.

(** No character of the text has a meaning of its own in a pattern. *)
Fixpoint plain (s : string) : bool :=
  match s with
  | EmptyString => true
  | String c rest =>
      negb (Ascii.eqb c "\" || Ascii.eqb c "." || Ascii.eqb c "*"
            || Re.is_unsupported c)
      && plain rest
  end.

(** No newline character occurs in the text. *)
Fixpoint newline_free (s : string) : bool :=
  match s with
  | EmptyString => true
  | String c rest => negb (Ascii.eqb c Re.newline) && newline_free rest
  end.

Definition match_package_installed (package_name yum_output : string)
  : option bool :=
  Re.re_match (".*Installing : " +:+ Re.escape package_name +:+ ".*")
    yum_output.

Definition match_package_deleted (package_name yum_output : string)
  : option bool :=
  Re.re_match (".*Removing: " +:+ Re.escape package_name +:+ ".*")
    yum_output.

(** ** Sequences of method calls on one object *)

(** The three calls that fill the request lists. *)
Inductive Request : Type :=
| RequestPackage (name : string)
| RequestCollection (name : string)
| RequestExclusion (name : string).

Definition request (r : Request) : M unit :=
  match r with
  | RequestPackage name => request_package name
  | RequestCollection name => request_collection name
  | RequestExclusion name => request_package_exclusion name
  end.

(** The three calls that process the request lists. *)
Inductive Processing : Type :=
| Bootstrap
| Install
| Delete (force : bool).

(** Every state changing method of the class. *)
Inductive Method : Type :=
| CallRequest (r : Request)
| CallRequestProduct (name : string)
| CallProcess (p : Processing)
| CallUpdate
| CallOnlyRequired
| CallPlusRecommended
| CallDatabaseConsistent
| CallDumpReload (version : nat).

(** Drops the return value of a computation. *)
Definition void {A} (c : M A) : M unit := bind c (fun _ => ret tt).

(** Runs a computation for its effect on the object and the trace; the
    caller goes on with the same object whether the call returned or
    raised. *)
Definition after {A} (c : M A) (m : Machine) : Machine := snd (c m).

Definition requests (rs : list Request) (m : Machine) : Machine :=
  fold_left (fun m r => after (request r) m) rs m.

Section Calls.

Context {Handle : Type} (w : World Handle).

Definition process (p : Processing) : M Handle :=
  match p with
  | Bootstrap => process_install_requests_bootstrap w
  | Install => process_install_requests w
  | Delete force => process_delete_requests w force
  end.

Definition invoke (c : Method) : M unit :=
  match c with
  | CallRequest r => request r
  | CallRequestProduct name => request_product name
  | CallProcess p => void (process p)
  | CallUpdate => void (update w)
  | CallOnlyRequired => process_only_required
  | CallPlusRecommended => process_plus_recommended
  | CallDatabaseConsistent => void (database_consistent w)
  | CallDumpReload version => dump_reload_package_database version
  end.

Definition invoke_all (cs : list Method) (m : Machine) : Machine :=
  fold_left (fun m c => after (invoke c) m) cs m.

End Calls.

(** ** Properties of object states and traces *)

(** All three request lists are empty. *)
Definition queues_empty (o : Instance) : Prop :=
  package_requests o = [] /\ collection_requests o = []
  /\ exclude_requests o = [].

(** The three request lists of two states are the same. *)
Definition same_queues (o o' : Instance) : Prop :=
  package_requests o' = package_requests o
  /\ collection_requests o' = collection_requests o
  /\ exclude_requests o' = exclude_requests o.

(** The event is an execution through [Command.call]: the install and
    removal commands are the only ones run that way. *)
Definition is_call (e : Event) : bool :=
  match e with CommandCall _ _ _ => true | _ => false end.

(** The query for one package in the installed-package database. *)
Definition query_command (root name : string) : list string :=
  ["chroot"; root; "rpm"; "-q"; name].

(** The event is the database query for [name], with any answer. *)
Definition is_query (root name : string) (e : Event) : Prop :=
  exists failure, e = CommandRun (query_command root name) failure.

(** The package a successful database query reported as installed. *)
Definition reported_installed (e : Event) : option string :=
  match e with
  | CommandRun [_; _; _; _; name] None => Some name
  | _ => None
  end.

(** The number of times the strong-requires flag occurs. *)
Definition strong_count (args : list string) : nat :=
  length (filter (fun a => a = strong_flag) args).

(** ** Example worlds and objects *)

(** Every command fails and no executable is found. *)
Definition failing_world : World unit := {|
  path_which := fun _ _ _ _ => None;
  command_run := fun _ _ => Failed "exit status 1";
  command_call := fun _ _ _ => Failed "exit status 1";
  move_to_root := fun args => args
|}.

(** Every command succeeds and no executable is found. *)
Definition working_world : World unit := {|
  path_which := fun _ _ _ _ => None;
  command_run := fun _ _ => Done tt;
  command_call := fun _ _ _ => Done tt;
  move_to_root := fun args => args
|}.

(** A package database in which only package [a] is installed; the other
    commands succeed, and [yum-deprecated] is found wherever it is looked
    for. *)
Definition only_a_installed : World unit := {|
  path_which := fun _ filename _ _ => Some ("/usr/bin/" +:+ filename);
  command_run := fun _ command =>
    match command with
    | [_; _; _; "-q"; name] =>
        if String.eqb name "a" then Done tt
        else Failed "package is not installed"
    | _ => Done tt
    end;
  command_call := fun _ _ _ => Done tt;
  move_to_root := fun args => args
|}.

Definition example_instance (custom packages collections excludes
    : list string) : Instance := {|
  repository := {| rc_yum_args := ["-y"]; rc_command_env := ∅ |};
  root_dir := "/build/root";
  custom_args := custom;
  yum_args := ["-y"];
  command_env := ∅;
  package_requests := packages;
  collection_requests := collections;
  exclude_requests := excludes
|}.

Definition example_machine (custom packages collections excludes
    : list string) : Machine :=
  {| self := example_instance custom packages collections excludes;
     trace := [] |}.

(** An object built with custom arguments that hold the strong-requires
    flag twice. *)
Definition twice_strong : Machine :=
  {| self := post_init (Some [strong_flag; strong_flag])
               (example_instance [] [] [] []);
     trace := [] |}.

(** ** What each method does, as one equation

    The helper functions below describe results; the lemmas that follow
    show that the methods compute them. *)

(** The search environment [_get_yum_binary_name] hands to the probe. *)
Definition yum_search_env (root : option string) : option Env :=
  match root with
  | Some (String c r) => Some {[ "PATH" := String c r +:+ "/usr/bin" ]}
  | _ => None
  end.

(** The binary name chosen for an answer of the probe. *)
Definition binary_for (found : option string) : string :=
  if opt_str_true found then "yum-deprecated" else "yum".

(** The [--exclude=<name>] token of an exclusion request. *)
Definition exclude_token (name : string) : string := "--exclude=" +:+ name.

(** The object after the exclusion requests were added to the custom
    arguments. *)
Definition add_exclusions (o : Instance) : Instance :=
  set_custom_args (custom_args o ++ map exclude_token (exclude_requests o)) o.

(** The object with its three request lists emptied. *)
Definition emptied (o : Instance) : Instance :=
  set_exclude_requests []
    (set_collection_requests [] (set_package_requests [] o)).

(** The loop of [process_delete_requests] over [items]: the trace it
    leaves and the packages it keeps. *)
Fixpoint scan {Handle} (w : World Handle) (root : string) (t : Trace)
    (items acc : list string) : Trace * list string :=
  match items with
  | [] => (t, acc)
  | x :: rest =>
      let a := command_run w t (query_command root x) in
      scan w root (t ++ [CommandRun (query_command root x) (failure_of a)])
        rest (match a with Done _ => acc ++ [x] | Failed _ => acc end)
  end.

(** How one method call may change the custom arguments. *)
Inductive args_step (args : list string) : list string -> Prop :=
| args_same : args_step args args
| args_excluded names : args_step args (args ++ map exclude_token names)
| args_strong :
    strong_flag ∉ args -> args_step args (args ++ [strong_flag])
| args_weak args' :
    list_remove strong_flag args = Some args' -> args_step args args'.

Section Runs.

Context {Handle : Type} (w : World Handle).

Lemma machine_eta (m : Machine) : {| self := self m; trace := trace m |} = m.
Proof. by destruct m. Qed.

Lemma set_custom_args_same (o : Instance) : set_custom_args (custom_args o) o = o.
Proof. by destruct o. Qed.

Lemma resolve_run (root : option string) (m : Machine) :
  _get_yum_binary_name w root m =
    let env := yum_search_env root in
    let found := path_which w (trace m) "yum-deprecated" env X_OK in
    (Returned (binary_for found),
     log (PathWhich "yum-deprecated" env X_OK found) m).
Proof.
  unfold _get_yum_binary_name, bind, Path_which, binary_for.
  assert (Henv : match root with
                 | Some r =>
                     if str_true r
                     then Some ({[ "PATH" := join "/" [r; "usr"; "bin"] ]} : Env)
                     else None
                 | None => None
                 end = yum_search_env root).
  { destruct root as [[|c r]|]; reflexivity. }
  rewrite Henv. cbn.
  by destruct (opt_str_true _).
Qed.

Lemma bootstrap_run (m : Machine) :
  process_install_requests_bootstrap w m =
    let o := self m in
    let found := path_which w (trace m) "yum-deprecated" None X_OK in
    let yum := binary_for found in
    let t1 := trace m ++ [PathWhich "yum-deprecated" None X_OK found] in
    let refresh := [yum] ++ yum_args o ++ ["makecache"] in
    match command_run w t1 refresh with
    | Failed msg =>
        (Raised (CommandFailure msg),
         {| self := o; trace := t1 ++ [CommandRun refresh (Some msg)] |})
    | Done _ =>
        let t2 := t1 ++ [CommandRun refresh None] in
        let cmd := ["bash"; "-c"; join " " (bootstrap_bash_command yum o)] in
        match command_call w t2 cmd (command_env o) with
        | Done h =>
            (Returned h,
             {| self := emptied o;
                trace := t2 ++ [CommandCall cmd (command_env o) None] |})
        | Failed msg =>
            (Raised (CommandFailure msg),
             {| self := emptied o;
                trace := t2 ++ [CommandCall cmd (command_env o) (Some msg)] |})
        end
    end.
Proof.
  unfold process_install_requests_bootstrap, bind at 1.
  rewrite resolve_run. cbn.
  unfold bind, get, Command_run, cleanup_requests, modify, Command_call. cbn.
  destruct (command_run w _ _) as [[]|msg]; cbn; [|done].
  by destruct (command_call w _ _ _) as [h|msg].
Qed.

Lemma exclusions_run (names : list string) (m : Machine) :
  for_each names (fun package =>
    modify (fun o =>
      set_custom_args (custom_args o ++ ["--exclude=" +:+ package]) o)) m
  = (Returned tt,
     on_self (fun o =>
       set_custom_args (custom_args o ++ map exclude_token names) o) m).
Proof.
  revert m. induction names as [|x names IH]; intros m; cbn.
  - unfold ret, on_self. rewrite app_nil_r, set_custom_args_same.
    by rewrite machine_eta.
  - unfold bind, modify at 1. cbn. rewrite IH.
    unfold on_self. cbn. by rewrite <- app_assoc.
Qed.

Lemma install_run (m : Machine) :
  process_install_requests w m =
    let o := self m in
    let env := yum_search_env (Some (root_dir o)) in
    let found := path_which w (trace m) "yum-deprecated" env X_OK in
    let yum := binary_for found in
    let t1 := trace m ++ [PathWhich "yum-deprecated" env X_OK found] in
    let o1 := add_exclusions o in
    let rebuild := ["chroot"; root_dir o; "rpm"; "--rebuilddb"] in
    match command_run w t1 rebuild with
    | Failed msg =>
        (Raised (CommandFailure msg),
         {| self := o1; trace := t1 ++ [CommandRun rebuild (Some msg)] |})
    | Done _ =>
        let t2 := t1 ++ [CommandRun rebuild None] in
        let cmd :=
          ["bash"; "-c";
           join " "
             (chroot_bash_command yum (move_to_root w (yum_args o)) o1)] in
        match command_call w t2 cmd (command_env o) with
        | Done h =>
            (Returned h,
             {| self := emptied o1;
                trace := t2 ++ [CommandCall cmd (command_env o) None] |})
        | Failed msg =>
            (Raised (CommandFailure msg),
             {| self := emptied o1;
                trace := t2 ++ [CommandCall cmd (command_env o) (Some msg)] |})
        end
    end.
Proof.
  unfold process_install_requests.
  unfold bind at 1. unfold get at 1. cbn.
  unfold bind at 1. rewrite resolve_run. cbn.
  unfold bind at 1. unfold get at 1. cbn.
  unfold bind at 1.
  assert (Hexcl : forall m0 : Machine,
    (if nonempty (exclude_requests (self m)) then
       for_each (exclude_requests (self m)) (fun package =>
         modify (fun o =>
           set_custom_args (custom_args o ++ ["--exclude=" +:+ package]) o))
     else ret tt) m0
    = (Returned tt,
       on_self (fun o =>
         set_custom_args
           (custom_args o ++ map exclude_token (exclude_requests (self m))) o)
         m0)).
  { intros m0. destruct (exclude_requests (self m)) as [|x l] eqn:E.
    - cbn. unfold ret, on_self. rewrite app_nil_r, set_custom_args_same.
      by rewrite machine_eta.
    - change (nonempty (x :: l)) with true. cbv iota. apply exclusions_run. }
  rewrite Hexcl. cbn.
  unfold bind, get, Command_run, cleanup_requests, modify, Command_call. cbn.
  destruct (command_run w _ _) as [[]|msg]; cbn; [|done].
  by destruct (command_call w _ _ _) as [h|msg].
Qed.

Lemma scan_run (root : string) (items acc : list string) (m : Machine) :
  root_dir (self m) = root ->
  for_fold items acc (fun delete_items delete_item =>
    try_except
      (root <- get root_dir ;;
       Command_run w ["chroot"; root; "rpm"; "-q"; delete_item] ;;
       ret (delete_items ++ [delete_item]))
      (fun _ => ret delete_items)) m
  = (Returned (snd (scan w root (trace m) items acc)),
     {| self := self m; trace := fst (scan w root (trace m) items acc) |}).
Proof.
  revert acc m. induction items as [|x items IH]; intros acc m Hroot; cbn.
  - unfold ret. by rewrite machine_eta.
  - unfold bind at 1. unfold try_except, bind, get, Command_run. cbn.
    rewrite Hroot. fold (query_command root x).
    destruct (command_run w (trace m) (query_command root x)) as [[]|msg];
      cbn; rewrite IH by done; done.
Qed.

(** The loop asks one query per requested package, in order, and keeps
    the packages whose query succeeded. *)
Lemma scan_queries (root : string) (items acc : list string) (t : Trace) :
  exists queries,
    fst (scan w root t items acc) = t ++ queries
    /\ Forall2 (is_query root) items queries
    /\ snd (scan w root t items acc) = acc ++ omap reported_installed queries.
Proof.
  revert acc t. induction items as [|x items IH]; intros acc t; cbn.
  - exists []. by rewrite !app_nil_r.
  - set (a := command_run w t (query_command root x)).
    destruct (IH (match a with Done _ => acc ++ [x] | Failed _ => acc end)
                 (t ++ [CommandRun (query_command root x) (failure_of a)]))
      as (queries & Ht & Hq & Hc).
    exists (CommandRun (query_command root x) (failure_of a) :: queries).
    split; [by rewrite Ht, <- app_assoc|].
    split; [constructor; [by eexists|done]|].
    rewrite Hc. destruct a as [[]|msg]; cbn; [by rewrite <- app_assoc|done].
Qed.

Lemma delete_run (force : bool) (m : Machine) :
  exists queries,
    Forall2 (is_query (root_dir (self m))) (package_requests (self m)) queries
    /\ process_delete_requests w force m =
       let o := self m in
       let t1 := trace m ++ queries in
       let delete_items := omap reported_installed queries in
       if nonempty delete_items then
         let cmd :=
           ["chroot"; root_dir o; "rpm"; "-e"] ++ delete_options
             ++ delete_items in
         match command_call w t1 cmd (command_env o) with
         | Done h =>
             (Returned h,
              {| self := emptied o;
                 trace := t1 ++ [CommandCall cmd (command_env o) None] |})
         | Failed msg =>
             (Raised (CommandFailure msg),
              {| self := emptied o;
                 trace := t1 ++ [CommandCall cmd (command_env o) (Some msg)] |})
         end
       else
         (Raised (KiwiRequestError none_installed),
          {| self := o; trace := t1 |}).
Proof.
  destruct (scan_queries (root_dir (self m)) (package_requests (self m)) []
              (trace m)) as (queries & Ht & Hq & Hc).
  exists queries. split; [done|].
  unfold process_delete_requests.
  unfold bind at 1. unfold get at 1. cbn.
  unfold bind at 1. rewrite (scan_run (root_dir (self m))) by done.
  rewrite Ht, Hc. cbn.
  destruct (omap reported_installed queries) as [|p ps]; cbn; [done|].
  unfold bind, cleanup_requests, modify, get, Command_call. cbn.
  by destruct (command_call w _ _ _) as [h|msg].
Qed.

Lemma update_run (m : Machine) :
  self (after (update w) m) = self m.
Proof.
  unfold after, update.
  unfold bind at 1. unfold get at 1. cbn.
  unfold bind at 1. rewrite resolve_run. cbn.
  unfold bind, get, Command_call. cbn.
  by destruct (command_call w _ _ _) as [h|msg].
Qed.

Lemma database_consistent_run (m : Machine) :
  self (after (database_consistent w) m) = self m.
Proof.
  unfold after, database_consistent, try_except, bind, get, Command_run. cbn.
  by destruct (command_run w _ _) as [[]|msg].
Qed.

Lemma void_after {A} (c : M A) (m : Machine) : after (void c) m = after c m.
Proof.
  unfold after, void, bind. by destruct (c m) as [[a|e] m'].
Qed.

End Runs.

(** ** The binary resolver *)

Section Resolver.

Context {Handle : Type} (w : World Handle).

(** C9: [_get_yum_binary_name] asks the probe once, for the file
    [yum-deprecated] with access mode [X_OK]: with a root (a non-empty
    string; Python takes the empty string for no root) the search
    environment is the single entry [PATH = <root>/usr/bin], with no root
    there is no search environment and the probe uses the ambient one.  It
    returns the name [yum-deprecated] iff the probe found something, the
    name [yum] otherwise, and it never raises. *)
Theorem get_yum_binary_name_probe (root : option string) (m : Machine) :
  exists env found name,
    _get_yum_binary_name w root m
      = (Returned name, log (PathWhich "yum-deprecated" env X_OK found) m)
    /\ found = path_which w (trace m) "yum-deprecated" env X_OK
    /\ match root with
       | Some (String c r) =>
           env = Some {[ "PATH" := String c r +:+ "/usr/bin" ]}
       | _ => env = None
       end
    /\ (name = "yum-deprecated" <-> opt_str_true found = true)
    /\ (name = "yum" <-> opt_str_true found = false).
Proof.
  exists (yum_search_env root).
  exists (path_which w (trace m) "yum-deprecated" (yum_search_env root) X_OK).
  eexists. split; [apply resolve_run|]. split; [done|].
  split; [by destruct root as [[|c r]|]|].
  unfold binary_for. destruct (opt_str_true _); split; split; done.
Qed.

End Resolver.

(** ** The deletion filter *)

Section Deletion.

Context {Handle : Type} (w : World Handle).

(** C10: the [force] argument of [process_delete_requests] has no effect:
    outcome, object and trace (the queries and the removal command) are
    the same for both values. *)
Theorem delete_ignores_force (force force' : bool) (m : Machine) :
  process_delete_requests w force m = process_delete_requests w force' m.
Proof. reflexivity. Qed.

(** C2: when none of the queries the call made reported a package as
    installed, [process_delete_requests] raises [KiwiRequestError] with
    the message "None of the requested packages to delete are installed";
    all it executed are the queries, one per requested package, so no
    removal command; the object is as before. *)
Theorem delete_none_installed (force : bool) (m m' : Machine)
    (out : Outcome Handle) (new : Trace) :
  process_delete_requests w force m = (out, m') ->
  trace m' = trace m ++ new ->
  (forall e, e ∈ new -> reported_installed e = None) ->
  out = Raised (KiwiRequestError none_installed)
  /\ Forall2 (is_query (root_dir (self m))) (package_requests (self m)) new
  /\ (forall e, e ∈ new -> is_call e = false)
  /\ self m' = self m.
Proof.
  intros Hrun Htrace Hnone.
  destruct (delete_run w force m) as (queries & Hq & Heq).
  rewrite Heq in Hrun. cbn zeta in Hrun.
  destruct (omap reported_installed queries) as [|p ps] eqn:Hconf.
  - cbn in Hrun. injection Hrun as <- <-. cbn in Htrace.
    apply app_inv_head in Htrace. subst new.
    repeat split; try done.
    intros e He.
    destruct (proj1 (list_elem_of_lookup _ _) He) as [i Hi].
    destruct (Forall2_lookup_r _ _ _ _ _ Hq Hi) as (x & _ & [f ->]).
    done.
  - exfalso.
    assert (Hin : exists e, e ∈ new /\ reported_installed e = Some p).
    { assert (Hp : p ∈ omap reported_installed queries)
        by (rewrite Hconf; left).
      apply list_elem_of_omap in Hp as (e & He & Hep).
      exists e. split; [|done].
      cbn in Hrun.
      destruct (command_call w _ _ _) as [h|msg];
        injection Hrun as <- <-; cbn in Htrace;
        rewrite <- app_assoc in Htrace; apply app_inv_head in Htrace;
        subst new; apply elem_of_app; by left. }
    destruct Hin as (e & He & Hep). rewrite (Hnone e He) in Hep. done.
Qed.


End Deletion.

(** ** Strings and joined command lines *)

Lemma str_app_cons (c : ascii) (s t : string) :
  String c s +:+ t = String c (s +:+ t).
Proof. reflexivity. Qed.

Lemma str_app_nil_l (s : string) : EmptyString +:+ s = s.
Proof. reflexivity. Qed.

Lemma str_app_nil_r (s : string) : s +:+ EmptyString = s.
Proof.
  induction s as [|c s IH]; [done|]. by rewrite str_app_cons, IH.
Qed.

Lemma str_app_assoc (a b c : string) : (a +:+ b) +:+ c = a +:+ b +:+ c.
Proof.
  induction a as [|x a IH]; [done|]. by rewrite !str_app_cons, IH.
Qed.

Lemma join_cons (sep x y : string) (l : list string) :
  join sep (x :: y :: l) = x +:+ sep +:+ join sep (y :: l).
Proof. reflexivity. Qed.

(** Joining two non-empty lists is joining each and putting the separator
    between the results. *)
Lemma join_app (sep : string) (a b : list string) :
  a <> [] -> b <> [] ->
  join sep (a ++ b) = join sep a +:+ sep +:+ join sep b.
Proof.
  intros Ha Hb. induction a as [|x a IH]; [done|].
  destruct a as [|y a].
  - destruct b as [|z b]; [done|]. reflexivity.
  - change ((x :: y :: a) ++ b) with (x :: y :: (a ++ b)).
    rewrite !join_cons.
    change (y :: a ++ b) with ((y :: a) ++ b).
    rewrite IH by done. by rewrite !str_app_assoc.
Qed.

(** A command line with [&&] between two non-empty parts. *)
Lemma join_and (a b : list string) :
  a <> [] -> b <> [] ->
  join " " (a ++ "&&" :: b) = join " " a +:+ " && " +:+ join " " b.
Proof.
  intros Ha Hb. rewrite join_app by done.
  destruct b as [|z b]; [done|]. rewrite join_cons. reflexivity.
Qed.

(** ** Installing *)

Section Installing.

Context {Handle : Type} (w : World Handle).

(** The bootstrap command line without collections. *)
Lemma bootstrap_command_plain (yum : string) (o : Instance) :
  collection_requests o = [] ->
  bootstrap_bash_command yum o =
    [yum] ++ yum_args o ++ ["--installroot"; root_dir o] ++ custom_args o
      ++ ["install"] ++ package_requests o.
Proof. intros H. unfold bootstrap_bash_command. by rewrite H. Qed.

(** The bootstrap command line with collections. *)
Lemma bootstrap_command_group (yum : string) (o : Instance) :
  collection_requests o <> [] ->
  join " " (bootstrap_bash_command yum o) =
    join " " ([yum] ++ yum_args o ++ ["--installroot"; root_dir o]
                ++ custom_args o ++ ["install"] ++ package_requests o)
    +:+ " && " +:+
    join " " ([yum] ++ yum_args o ++ ["--installroot"; root_dir o]
                ++ custom_args o ++ ["groupinstall"] ++ collection_requests o).
Proof.
  intros H. unfold bootstrap_bash_command.
  destruct (collection_requests o) as [|c cs]; [done|].
  change (nonempty (c :: cs)) with true. cbv iota.
  by rewrite <- join_and.
Qed.

(** The chroot command line with collections. *)
Lemma chroot_command_group (yum : string) (args : list string) (o : Instance) :
  collection_requests o <> [] ->
  join " " (chroot_bash_command yum args o) =
    join " " (["chroot"; root_dir o; yum] ++ args ++ custom_args o
                ++ ["install"] ++ package_requests o)
    +:+ " && " +:+
    join " " (["chroot"; root_dir o; yum] ++ args ++ custom_args o
                ++ ["groupinstall"] ++ collection_requests o).
Proof.
  intros H. unfold chroot_bash_command.
  destruct (collection_requests o) as [|c cs]; [done|].
  change (nonempty (c :: cs)) with true. cbv iota.
  by rewrite <- join_and.
Qed.

(** The shell command of a bootstrap install: the install command, and
    the group install command after it when a collection is requested. *)
Lemma bootstrap_shell (yum : string) (o : Instance) :
  join " " (bootstrap_bash_command yum o)
  = match collection_requests o with
    | [] =>
        join " " ([yum] ++ yum_args o ++ ["--installroot"; root_dir o]
                    ++ custom_args o ++ ["install"] ++ package_requests o)
    | _ :: _ =>
        join " " ([yum] ++ yum_args o ++ ["--installroot"; root_dir o]
                    ++ custom_args o ++ ["install"] ++ package_requests o)
        +:+ " && " +:+
        join " " ([yum] ++ yum_args o ++ ["--installroot"; root_dir o]
                    ++ custom_args o ++ ["groupinstall"]
                    ++ collection_requests o)
    end.
Proof.
  destruct (collection_requests o) as [|c cs] eqn:E.
  - by rewrite bootstrap_command_plain.
  - rewrite bootstrap_command_group by (rewrite E; discriminate).
    by rewrite E.
Qed.

(** What a bootstrap install does, with the shell command written out. *)
Lemma bootstrap_exec (m : Machine) :
  let o := self m in
  let found := path_which w (trace m) "yum-deprecated" None X_OK in
  let yum := binary_for found in
  let probe := PathWhich "yum-deprecated" None X_OK found in
  let refresh := [yum] ++ yum_args o ++ ["makecache"] in
  let install :=
    join " " ([yum] ++ yum_args o ++ ["--installroot"; root_dir o]
                ++ custom_args o ++ ["install"] ++ package_requests o) in
  let groupinstall :=
    join " " ([yum] ++ yum_args o ++ ["--installroot"; root_dir o]
                ++ custom_args o ++ ["groupinstall"]
                ++ collection_requests o) in
  let shell :=
    match collection_requests o with
    | [] => install
    | _ :: _ => install +:+ " && " +:+ groupinstall
    end in
  let cmd := ["bash"; "-c"; shell] in
  process_install_requests_bootstrap w m =
    match command_run w (trace m ++ [probe]) refresh with
    | Failed msg =>
        (Raised (CommandFailure msg),
         {| self := o;
            trace := trace m ++ [probe; CommandRun refresh (Some msg)] |})
    | Done _ =>
        match
          command_call w (trace m ++ [probe; CommandRun refresh None]) cmd
            (command_env o)
        with
        | Done h =>
            (Returned h,
             {| self := emptied o;
                trace := trace m ++
                  [probe; CommandRun refresh None;
                   CommandCall cmd (command_env o) None] |})
        | Failed msg =>
            (Raised (CommandFailure msg),
             {| self := emptied o;
                trace := trace m ++
                  [probe; CommandRun refresh None;
                   CommandCall cmd (command_env o) (Some msg)] |})
        end
    end.
Proof.
  intros o found yum probe refresh install groupinstall shell cmd.
  rewrite bootstrap_run. cbn zeta. fold o found yum probe refresh.
  rewrite bootstrap_shell. fold install groupinstall shell cmd.
  rewrite <- !app_assoc.
  destruct (command_run w _ _) as [[]|msg];
    [|by rewrite <- ?app_assoc].
  destruct (command_call w _ _ _) as [h|msg]; by rewrite <- ?app_assoc.
Qed.

Lemma chroot_command_plain (yum : string) (args : list string) (o : Instance) :
  collection_requests o = [] ->
  chroot_bash_command yum args o =
    ["chroot"; root_dir o; yum] ++ args ++ custom_args o ++ ["install"]
      ++ package_requests o.
Proof. intros H. unfold chroot_bash_command. by rewrite H. Qed.

(** The shell command of a chroot install: the install command, and the
    group install command after it when a collection is requested. *)
Lemma chroot_shell (yum : string) (args : list string) (o : Instance) :
  join " " (chroot_bash_command yum args o)
  = match collection_requests o with
    | [] =>
        join " " (["chroot"; root_dir o; yum] ++ args ++ custom_args o
                    ++ ["install"] ++ package_requests o)
    | _ :: _ =>
        join " " (["chroot"; root_dir o; yum] ++ args ++ custom_args o
                    ++ ["install"] ++ package_requests o)
        +:+ " && " +:+
        join " " (["chroot"; root_dir o; yum] ++ args ++ custom_args o
                    ++ ["groupinstall"] ++ collection_requests o)
    end.
Proof.
  destruct (collection_requests o) as [|c cs] eqn:E.
  - by rewrite chroot_command_plain.
  - rewrite chroot_command_group by (rewrite E; discriminate).
    by rewrite E.
Qed.

(** What a chroot install does, with the shell command written out. *)
Lemma install_exec (m : Machine) :
  let o := self m in
  let env := yum_search_env (Some (root_dir o)) in
  let found := path_which w (trace m) "yum-deprecated" env X_OK in
  let yum := binary_for found in
  let probe := PathWhich "yum-deprecated" env X_OK found in
  let rebuild := ["chroot"; root_dir o; "rpm"; "--rebuilddb"] in
  let custom :=
    custom_args o
      ++ map (fun name => "--exclude=" +:+ name) (exclude_requests o) in
  let install :=
    join " " (["chroot"; root_dir o; yum] ++ move_to_root w (yum_args o)
                ++ custom ++ ["install"] ++ package_requests o) in
  let groupinstall :=
    join " " (["chroot"; root_dir o; yum] ++ move_to_root w (yum_args o)
                ++ custom ++ ["groupinstall"] ++ collection_requests o) in
  let shell :=
    match collection_requests o with
    | [] => install
    | _ :: _ => install +:+ " && " +:+ groupinstall
    end in
  let cmd := ["bash"; "-c"; shell] in
  process_install_requests w m =
    match command_run w (trace m ++ [probe]) rebuild with
    | Failed msg =>
        (Raised (CommandFailure msg),
         {| self := set_custom_args custom o;
            trace := trace m ++ [probe; CommandRun rebuild (Some msg)] |})
    | Done _ =>
        match
          command_call w (trace m ++ [probe; CommandRun rebuild None]) cmd
            (command_env o)
        with
        | Done h =>
            (Returned h,
             {| self := emptied (set_custom_args custom o);
                trace := trace m ++
                  [probe; CommandRun rebuild None;
                   CommandCall cmd (command_env o) None] |})
        | Failed msg =>
            (Raised (CommandFailure msg),
             {| self := emptied (set_custom_args custom o);
                trace := trace m ++
                  [probe; CommandRun rebuild None;
                   CommandCall cmd (command_env o) (Some msg)] |})
        end
    end.
Proof.
  intros o env found yum probe rebuild custom install groupinstall shell cmd.
  rewrite install_run. cbn zeta. fold o env found yum probe rebuild.
  rewrite chroot_shell.
  change (add_exclusions o) with (set_custom_args custom o).
  change (collection_requests (set_custom_args custom o))
    with (collection_requests o).
  change (custom_args (set_custom_args custom o)) with custom.
  change (root_dir (set_custom_args custom o)) with (root_dir o).
  change (package_requests (set_custom_args custom o))
    with (package_requests o).
  fold install groupinstall shell cmd.
  rewrite <- !app_assoc.
  destruct (command_run w _ _) as [[]|msg];
    [|by rewrite <- ?app_assoc].
  destruct (command_call w _ _ _) as [h|msg]; by rewrite <- ?app_assoc.
Qed.

(** C5: a bootstrap install asks the probe for the binary and then does
    two steps, each with the answer the world gives.  The first is the
    cache refresh [<binary> <yum_args> makecache]; when it fails the call
    raises its failure, nothing else is executed and the object is as
    before.  When it succeeds the second step is executed: [bash -c
    <shell>] with the command environment, where [<shell>] is the install
    command alone when no collection is requested, and the install
    command followed by [ && <binary> <yum_args> --installroot <root_dir>
    <custom_args> groupinstall <collections>] when some collection is
    requested; the call returns or raises as that command does. *)
Theorem bootstrap_two_steps (m : Machine) :
  let o := self m in
  let found := path_which w (trace m) "yum-deprecated" None X_OK in
  let yum := binary_for found in
  let probe := PathWhich "yum-deprecated" None X_OK found in
  let refresh := [yum] ++ yum_args o ++ ["makecache"] in
  let install :=
    join " " ([yum] ++ yum_args o ++ ["--installroot"; root_dir o]
                ++ custom_args o ++ ["install"] ++ package_requests o) in
  let groupinstall :=
    join " " ([yum] ++ yum_args o ++ ["--installroot"; root_dir o]
                ++ custom_args o ++ ["groupinstall"]
                ++ collection_requests o) in
  let shell :=
    match collection_requests o with
    | [] => install
    | _ :: _ => install +:+ " && " +:+ groupinstall
    end in
  let cmd := ["bash"; "-c"; shell] in
  process_install_requests_bootstrap w m =
    match command_run w (trace m ++ [probe]) refresh with
    | Failed msg =>
        (Raised (CommandFailure msg),
         {| self := o;
            trace := trace m ++ [probe; CommandRun refresh (Some msg)] |})
    | Done _ =>
        match
          command_call w (trace m ++ [probe; CommandRun refresh None]) cmd
            (command_env o)
        with
        | Done h =>
            (Returned h,
             {| self := emptied o;
                trace := trace m ++
                  [probe; CommandRun refresh None;
                   CommandCall cmd (command_env o) None] |})
        | Failed msg =>
            (Raised (CommandFailure msg),
             {| self := emptied o;
                trace := trace m ++
                  [probe; CommandRun refresh None;
                   CommandCall cmd (command_env o) (Some msg)] |})
        end
    end.
Proof. exact (bootstrap_exec m). Qed.

(** What the last event says when a bootstrap install executed its shell
    command. *)
Lemma bootstrap_last (m : Machine) (cmd : list string) (env : Env)
    (failure : option string) :
  last (trace (snd (process_install_requests_bootstrap w m)))
    = Some (CommandCall cmd env failure) ->
  exists found,
    cmd = ["bash"; "-c";
           join " " (bootstrap_bash_command (binary_for found) (self m))].
Proof.
  rewrite bootstrap_run. cbn zeta.
  destruct (command_run w _ _) as [[]|msg]; cbn.
  - destruct (command_call w _ _ _) as [h|msg]; cbn;
      rewrite last_snoc; intros [= <- <- <-]; eauto.
  - rewrite last_snoc. done.
Qed.

(** What the last event says when a chroot install executed its shell
    command. *)
Lemma install_last (m : Machine) (cmd : list string) (env : Env)
    (failure : option string) :
  last (trace (snd (process_install_requests w m)))
    = Some (CommandCall cmd env failure) ->
  exists found,
    cmd = ["bash"; "-c";
           join " "
             (chroot_bash_command (binary_for found)
                (move_to_root w (yum_args (self m)))
                (add_exclusions (self m)))].
Proof.
  rewrite install_run. cbn zeta.
  destruct (command_run w _ _) as [[]|msg]; cbn.
  - destruct (command_call w _ _ _) as [h|msg]; cbn;
      rewrite last_snoc; intros [= <- <- <-]; eauto.
  - rewrite last_snoc. done.
Qed.


(** C8: [request_collection name] stores the name between two double
    quote characters, at the end of the collection list.  In any state
    where this token is the only collection, a bootstrap install whose
    cache refresh succeeds, and a chroot install whose database rebuild
    succeeds, executes the shell command that ends with the group install
    part [... groupinstall <quoted name>], after the [ && ] that follows
    the install part. *)
Theorem collection_quoted_in_groupinstall (name : string) (m m1 : Machine) :
  let quoted := dquote +:+ name +:+ dquote in
  collection_requests (self (after (request_collection name) m))
    = collection_requests (self m) ++ [quoted]
  /\ (collection_requests (self m1) = [quoted] ->
      let o := self m1 in
      (let found := path_which w (trace m1) "yum-deprecated" None X_OK in
       let yum := binary_for found in
       let probe := PathWhich "yum-deprecated" None X_OK found in
       let refresh := [yum] ++ yum_args o ++ ["makecache"] in
       let cmd :=
         ["bash"; "-c";
          join " " ([yum] ++ yum_args o ++ ["--installroot"; root_dir o]
                      ++ custom_args o ++ ["install"] ++ package_requests o)
          +:+ " && " +:+
          join " " ([yum] ++ yum_args o ++ ["--installroot"; root_dir o]
                      ++ custom_args o ++ ["groupinstall"; quoted])] in
       command_run w (trace m1 ++ [probe]) refresh = Done tt ->
       trace (snd (process_install_requests_bootstrap w m1))
       = trace m1 ++
         [probe; CommandRun refresh None;
          CommandCall cmd (command_env o)
            (failure_of
               (command_call w (trace m1 ++ [probe; CommandRun refresh None])
                  cmd (command_env o)))])
      /\ (let env := yum_search_env (Some (root_dir o)) in
          let found := path_which w (trace m1) "yum-deprecated" env X_OK in
          let yum := binary_for found in
          let probe := PathWhich "yum-deprecated" env X_OK found in
          let rebuild := ["chroot"; root_dir o; "rpm"; "--rebuilddb"] in
          let custom :=
            custom_args o
              ++ map (fun excluded => "--exclude=" +:+ excluded)
                   (exclude_requests o) in
          let cmd :=
            ["bash"; "-c";
             join " " (["chroot"; root_dir o; yum]
                         ++ move_to_root w (yum_args o) ++ custom
                         ++ ["install"] ++ package_requests o)
             +:+ " && " +:+
             join " " (["chroot"; root_dir o; yum]
                         ++ move_to_root w (yum_args o) ++ custom
                         ++ ["groupinstall"; quoted])] in
          command_run w (trace m1 ++ [probe]) rebuild = Done tt ->
          trace (snd (process_install_requests w m1))
          = trace m1 ++
            [probe; CommandRun rebuild None;
             CommandCall cmd (command_env o)
               (failure_of
                  (command_call w
                     (trace m1 ++ [probe; CommandRun rebuild None])
                     cmd (command_env o)))])).
Proof.
  intros quoted. split; [reflexivity|]. intros Hcoll. cbv zeta. split.
  - intros Hrun. rewrite bootstrap_exec. cbv zeta. rewrite Hrun, Hcoll.
    cbn [app].
    destruct (command_call w _ _ _) as [h|msg]; reflexivity.
  - intros Hrun. rewrite install_exec. cbv zeta. rewrite Hrun, Hcoll.
    cbn [app].
    destruct (command_call w _ _ _) as [h|msg]; reflexivity.
Qed.

Lemma queries_are_no_calls (root : string) (items : list string)
    (queries : Trace) :
  Forall2 (is_query root) items queries -> existsb is_call queries = false.
Proof.
  induction 1 as [|x e items queries [f ->] _ IH]; [done|]. cbn. exact IH.
Qed.

Lemma existsb_snoc_call (t : Trace) (cmd : list string) (env : Env)
    (failure : option string) :
  existsb is_call (t ++ [CommandCall cmd env failure]) = true.
Proof.
  rewrite existsb_app. cbn. by rewrite orb_true_r.
Qed.

(** How a processing call leaves the request lists: it either executed its
    final command and emptied the lists, or it raised before that and left
    them alone. *)
Lemma process_queues (p : Processing) (m : Machine) :
  exists new,
    trace (snd (process w p m)) = trace m ++ new
    /\ ((existsb is_call new = true
         /\ queues_empty (self (snd (process w p m))))
        \/ (existsb is_call new = false
            /\ (exists e, fst (process w p m) = Raised e)
            /\ same_queues (self m) (self (snd (process w p m))))).
Proof.
  destruct p as [| |force]; cbn [process].
  - rewrite bootstrap_run. cbn zeta.
    destruct (command_run w _ _) as [[]|msg]; cbn.
    + destruct (command_call w _ _ _) as [h|msg]; cbn;
        rewrite <- !app_assoc; eexists; (split; [reflexivity|]); left;
        (split; [reflexivity|done]).
    + rewrite <- !app_assoc. eexists. split; [reflexivity|]. right.
      split; [reflexivity|]. split; [by eexists|done].
  - rewrite install_run. cbn zeta.
    destruct (command_run w _ _) as [[]|msg]; cbn.
    + destruct (command_call w _ _ _) as [h|msg]; cbn;
        rewrite <- !app_assoc; eexists; (split; [reflexivity|]); left;
        (split; [reflexivity|done]).
    + rewrite <- !app_assoc. eexists. split; [reflexivity|]. right.
      split; [reflexivity|]. split; [by eexists|done].
  - destruct (delete_run w force m) as (queries & Hq & ->). cbn zeta.
    destruct (nonempty _).
    + destruct (command_call w _ _ _) as [h|msg]; cbn;
        rewrite <- !app_assoc; eexists; (split; [done|]); left;
        rewrite existsb_snoc_call; done.
    + cbn. exists queries. split; [done|]. right.
      split; [by eapply queries_are_no_calls|]. split; [by eexists|done].
Qed.

(** C1, amended: after any sequence of requests, a processing call that
    executed its final command (in particular every call that returns)
    leaves all three request lists empty; a call that raises before that
    (failed cache refresh, failed database rebuild, no requested package
    installed) leaves the three lists as they were. *)
Theorem queues_after_processing (rs : list Request) (p : Processing)
    (m : Machine) :
  let m1 := requests rs m in
  let out := fst (process w p m1) in
  let m2 := snd (process w p m1) in
  (forall h, out = Returned h -> queues_empty (self m2))
  /\ exists new,
       trace m2 = trace m1 ++ new
       /\ ((existsb is_call new = true /\ queues_empty (self m2))
           \/ (existsb is_call new = false
               /\ (exists e, out = Raised e)
               /\ same_queues (self m1) (self m2))).
Proof.
  intros m1 out m2.
  destruct (process_queues p m1) as (new & Ht & Hcases).
  split; [|by exists new].
  intros h Hout. destruct Hcases as [[_ H]|(_ & [e He] & _)]; [done|].
  unfold out in Hout. congruence.
Qed.

End Installing.

(** ** The custom arguments across method calls *)

Lemma strong_count_app (a b : list string) :
  strong_count (a ++ b) = strong_count a + strong_count b.
Proof. unfold strong_count. by rewrite filter_app, length_app. Qed.

Lemma strong_count_cons (x : string) (a : list string) :
  strong_count (x :: a)
  = (if decide (x = strong_flag) then 1 else 0) + strong_count a.
Proof.
  unfold strong_count. rewrite filter_cons. by destruct (decide _).
Qed.

Lemma strong_count_absent (a : list string) :
  strong_flag ∉ a -> strong_count a = 0.
Proof.
  induction a as [|x a IH]; intros H; [done|].
  rewrite strong_count_cons. apply not_elem_of_cons in H as [Hx Ha].
  destruct (decide (x = strong_flag)); [done|]. by rewrite IH.
Qed.

Lemma strong_count_present (a : list string) :
  strong_flag ∈ a -> 1 <= strong_count a.
Proof.
  induction a as [|x a IH]; intros H; [by apply elem_of_nil in H|].
  rewrite strong_count_cons. destruct (decide (x = strong_flag)); [lia|].
  apply elem_of_cons in H as [H|H]; [done|]. specialize (IH H). lia.
Qed.

Lemma exclude_token_not_strong (name : string) :
  exclude_token name <> strong_flag.
Proof. discriminate. Qed.

Lemma strong_count_excluded (names : list string) :
  strong_count (map exclude_token names) = 0.
Proof.
  apply strong_count_absent. intros H.
  apply list_elem_of_fmap in H as (name & Hname & _).
  by destruct (exclude_token_not_strong name).
Qed.

Lemma list_remove_present (x : string) (l : list string) :
  x ∈ l -> exists l', list_remove x l = Some l'.
Proof.
  induction l as [|y l IH]; intros H; [by apply elem_of_nil in H|].
  cbn. destruct (decide (y = x)); [by eexists|].
  apply elem_of_cons in H as [H|H]; [done|].
  destruct (IH H) as [l' ->]. by eexists.
Qed.

Lemma list_remove_absent (x : string) (l : list string) :
  x ∉ l -> list_remove x l = None.
Proof.
  induction l as [|y l IH]; intros H; [done|].
  apply not_elem_of_cons in H as [Hx Hl].
  cbn. destruct (decide (y = x)); [done|]. by rewrite IH.
Qed.

Lemma list_remove_count (l l' : list string) :
  list_remove strong_flag l = Some l' ->
  strong_count l = S (strong_count l').
Proof.
  revert l'. induction l as [|y l IH]; intros l' H; [done|].
  cbn in H. rewrite strong_count_cons.
  destruct (decide (y = strong_flag)).
  - by injection H as <-.
  - destruct (list_remove strong_flag l) as [l0|]; [|done].
    injection H as <-. rewrite strong_count_cons, (IH l0) by done.
    by destruct (decide (y = strong_flag)).
Qed.

Lemma list_remove_keeps (x y : string) (l l' : list string) :
  list_remove y l = Some l' -> x <> y -> x ∈ l -> x ∈ l'.
Proof.
  revert l'. induction l as [|z l IH]; intros l' H Hne Hin; [done|].
  cbn in H. destruct (decide (z = y)) as [->|Hz].
  - injection H as <-. apply elem_of_cons in Hin as [Hin|Hin]; done.
  - destruct (list_remove y l) as [l0|]; [|done]. injection H as <-.
    apply elem_of_cons in Hin as [->|Hin]; [left|right; by apply IH].
Qed.

(** A method call keeps an exclusion token that is among the custom
    arguments. *)
Lemma args_step_keeps_token (name : string) (a a' : list string) :
  args_step a a' -> exclude_token name ∈ a -> exclude_token name ∈ a'.
Proof.
  intros [|names|Hno|l Hrm] Hin; try done.
  - apply elem_of_app. by left.
  - apply elem_of_app. by left.
  - eapply list_remove_keeps; [done|apply exclude_token_not_strong|done].
Qed.

(** A method call keeps the strong-requires flag from occurring twice. *)
Lemma args_step_count (a a' : list string) :
  args_step a a' -> strong_count a <= 1 -> strong_count a' <= 1.
Proof.
  intros [|names|Hno|l Hrm] Hle; try done.
  - by rewrite strong_count_app, strong_count_excluded, Nat.add_0_r.
  - rewrite strong_count_app, (strong_count_absent a) by done. done.
  - apply list_remove_count in Hrm. lia.
Qed.

Section Policy.

Context {Handle : Type} (w : World Handle).

Lemma only_required_run (m : Machine) :
  process_only_required m =
    (Returned tt,
     if contains strong_flag (custom_args (self m)) then m
     else on_self (set_custom_args (custom_args (self m) ++ [strong_flag])) m).
Proof.
  unfold process_only_required, bind, get. cbn.
  by destruct (contains _ _).
Qed.

Lemma plus_recommended_run (m : Machine) :
  process_plus_recommended m =
    (Returned tt,
     match list_remove strong_flag (custom_args (self m)) with
     | Some args' => on_self (set_custom_args args') m
     | None => m
     end).
Proof.
  unfold process_plus_recommended, bind, get, contains. cbn.
  destruct (bool_decide_reflect (strong_flag ∈ custom_args (self m)))
    as [Hin|Hout].
  - destruct (list_remove_present _ _ Hin) as [l' ->]. done.
  - by rewrite list_remove_absent.
Qed.

Lemma invoke_args_step (c : Method) (m : Machine) :
  args_step (custom_args (self m))
    (custom_args (self (after (invoke w c) m))).
Proof.
  destruct c as [r|name|p| | | | |version]; cbn [invoke].
  - destruct r; apply args_same.
  - apply args_same.
  - rewrite void_after. unfold after.
    destruct p as [| |force]; cbn [process].
    + rewrite bootstrap_run. cbn zeta.
      destruct (command_run w _ _) as [[]|msg]; cbn; [|apply args_same].
      destruct (command_call w _ _ _) as [h|msg]; apply args_same.
    + rewrite install_run. cbn zeta.
      destruct (command_run w _ _) as [[]|msg]; cbn;
        [|apply args_excluded].
      destruct (command_call w _ _ _) as [h|msg]; apply args_excluded.
    + destruct (delete_run w force m) as (queries & _ & ->). cbn zeta.
      destruct (nonempty _); [|apply args_same].
      destruct (command_call w _ _ _) as [h|msg]; apply args_same.
  - rewrite void_after, update_run. apply args_same.
  - unfold after. rewrite only_required_run. cbn [snd]. unfold contains.
    destruct (bool_decide_reflect (strong_flag ∈ custom_args (self m)));
      [apply args_same|by apply args_strong].
  - unfold after. rewrite plus_recommended_run. cbn [snd].
    destruct (list_remove _ _) as [l|] eqn:E; [by apply args_weak|].
    apply args_same.
  - rewrite void_after, database_consistent_run. apply args_same.
  - apply args_same.
Qed.

(** What holds of the custom arguments and every method call keeps, holds
    after any sequence of method calls. *)
Lemma invoke_all_keeps (P : list string -> Prop) (cs : list Method)
    (m : Machine) :
  (forall a a', args_step a a' -> P a -> P a') ->
  P (custom_args (self m)) ->
  P (custom_args (self (invoke_all w cs m))).
Proof.
  intros Hstep. revert m.
  induction cs as [|c cs IH]; intros m HP; [done|].
  cbn. apply IH. eapply Hstep; [apply invoke_args_step|done].
Qed.


Lemma chroot_command_has_custom (x yum : string) (args : list string)
    (o : Instance) :
  x ∈ custom_args o -> x ∈ chroot_bash_command yum args o.
Proof.
  intros H. unfold chroot_bash_command.
  assert (Hin : x ∈ ["chroot"; root_dir o; yum] ++ args ++ custom_args o
                      ++ ["install"] ++ package_requests o).
  { apply elem_of_app. right. apply elem_of_app. right.
    apply elem_of_app. by left. }
  destruct (nonempty _); [|done]. apply elem_of_app. by left.
Qed.

(** Further requests keep a requested exclusion in the list. *)
Lemma requests_keep_exclusion (name : string) (rs : list Request)
    (m : Machine) :
  name ∈ exclude_requests (self m) ->
  name ∈ exclude_requests (self (requests rs m)).
Proof.
  revert m. induction rs as [|r rs IH]; intros m H; [done|].
  cbn. apply IH. destruct r; cbn; [done|done|].
  apply elem_of_app. by left.
Qed.


Lemma strong_count_zero (a : list string) :
  strong_count a = 0 -> strong_flag ∉ a.
Proof.
  intros H Hin. apply strong_count_present in Hin. lia.
Qed.

(** [process_only_required] is idempotent, whatever the custom arguments
    are. *)
Lemma only_required_idempotent (m : Machine) :
  after process_only_required (after process_only_required m)
  = after process_only_required m.
Proof.
  unfold after. rewrite !only_required_run. cbn [snd]. unfold contains.
  destruct (bool_decide_reflect (strong_flag ∈ custom_args (self m)))
    as [Hin|Hout].
  - by rewrite bool_decide_eq_true_2.
  - cbn. rewrite bool_decide_eq_true_2; [done|].
    apply elem_of_app. right. left.
Qed.

(** C6, amended: when the custom arguments hold the strong-requires flag
    at most once, both toggles return and are idempotent,
    [process_only_required] leaves the flag exactly once,
    [process_plus_recommended] leaves it out, the weak toggle followed by
    the strong one leaves it exactly once, and after any sequence of
    method calls the flag still occurs at most once. *)
Theorem strong_flag_at_most_once (cs : list Method) (m : Machine) :
  strong_count (custom_args (self m)) <= 1 ->
  let strong := after process_only_required in
  let weak := after process_plus_recommended in
  fst (process_only_required m) = Returned tt
  /\ fst (process_plus_recommended m) = Returned tt
  /\ strong (strong m) = strong m
  /\ strong_count (custom_args (self (strong m))) = 1
  /\ weak (weak m) = weak m
  /\ strong_count (custom_args (self (weak m))) = 0
  /\ strong_count (custom_args (self (strong (weak m)))) = 1
  /\ strong_count (custom_args (self (invoke_all w cs m))) <= 1.
Proof.
  intros Hle strong weak.
  assert (Hstrong : forall m0,
    strong_count (custom_args (self m0)) <= 1 ->
    strong_count (custom_args (self (strong m0))) = 1).
  { intros m0 H0. unfold strong, after. rewrite only_required_run.
    cbn [snd]. unfold contains.
    destruct (bool_decide_reflect (strong_flag ∈ custom_args (self m0)))
      as [Hin|Hout].
    - apply strong_count_present in Hin. lia.
    - unfold on_self, set_custom_args. cbn [self custom_args].
      rewrite strong_count_app, strong_count_absent by done. done. }
  assert (Hweak : strong_count (custom_args (self (weak m))) = 0).
  { unfold weak, after. rewrite plus_recommended_run. cbn [snd].
    destruct (list_remove _ _) as [l|] eqn:E.
    - apply list_remove_count in E.
      unfold on_self, set_custom_args. cbn [self custom_args]. lia.
    - destruct (decide (strong_flag ∈ custom_args (self m))) as [Hin|Hout].
      + apply list_remove_present in Hin as [l' Hl']. congruence.
      + by apply strong_count_absent. }
  split; [by rewrite only_required_run|].
  split; [by rewrite plus_recommended_run|].
  split; [apply only_required_idempotent|].
  split; [by apply Hstrong|].
  split.
  { unfold weak at 1. unfold after. rewrite plus_recommended_run. cbn [snd].
    by rewrite list_remove_absent by (by apply strong_count_zero). }
  split; [done|].
  split; [apply Hstrong; lia|].
  apply invoke_all_keeps; [apply args_step_count|done].
Qed.

End Policy.

(** ** The output matchers *)

Lemma special_not_alnum (c : ascii) :
  Re.is_special c = true -> Re.is_alnum c = false.
Proof.
  destruct c as [[] [] [] [] [] [] [] []]; vm_compute; congruence.
Qed.

Lemma not_special_plain (c : ascii) :
  Re.is_special c = false ->
  Ascii.eqb c "\" = false /\ Ascii.eqb c "." = false
  /\ Ascii.eqb c "*" = false /\ Re.is_unsupported c = false.
Proof.
  destruct c as [[] [] [] [] [] [] [] []]; vm_compute; intros H;
    repeat split; congruence.
Qed.

Lemma lex_cons_plain (c : ascii) (rest : string) :
  Ascii.eqb c "\" = false -> Ascii.eqb c "." = false ->
  Ascii.eqb c "*" = false -> Re.is_unsupported c = false ->
  Re.lex (String c rest) = cons (Re.TLit c) <$> Re.lex rest.
Proof.
  intros H1 H2 H3 H4. cbn [Re.lex]. by rewrite H1, H2, H3, H4.
Qed.

Lemma lex_cons_escaped (c : ascii) (rest : string) :
  Re.is_alnum c = false ->
  Re.lex (String "\" (String c rest)) = cons (Re.TLit c) <$> Re.lex rest.
Proof.
  intros H. cbn [Re.lex].
  change (Ascii.eqb "\" "\") with true. cbv iota. by rewrite H.
Qed.

(** An escaped name reads as the name taken literally. *)
Lemma lex_escape (name rest : string) :
  Re.lex (Re.escape name +:+ rest)
  = app (literal_tokens name) <$> Re.lex rest.
Proof.
  induction name as [|c name IH].
  - cbn [Re.escape literal_tokens]. rewrite str_app_nil_l.
    by destruct (Re.lex rest).
  - cbn [Re.escape literal_tokens].
    destruct (Re.is_special c) eqn:Hc.
    + rewrite !str_app_cons.
      rewrite lex_cons_escaped by (by apply special_not_alnum).
      rewrite IH. by destruct (Re.lex rest).
    + rewrite str_app_cons.
      destruct (not_special_plain c Hc) as (H1 & H2 & H3 & H4).
      rewrite lex_cons_plain by done.
      rewrite IH. by destruct (Re.lex rest).
Qed.

(** A text without pattern characters reads literally. *)
Lemma lex_plain (s rest : string) :
  plain s = true ->
  Re.lex (s +:+ rest) = app (literal_tokens s) <$> Re.lex rest.
Proof.
  induction s as [|c s IH]; intros Hs.
  - rewrite str_app_nil_l. by destruct (Re.lex rest).
  - cbn [plain] in Hs. apply andb_true_iff in Hs as [Hc Hs].
    apply negb_true_iff in Hc.
    apply orb_false_iff in Hc as [Hc H4].
    apply orb_false_iff in Hc as [Hc H3].
    apply orb_false_iff in Hc as [H1 H2].
    rewrite str_app_cons, lex_cons_plain by done.
    rewrite IH by done. cbn [literal_tokens]. by destruct (Re.lex rest).
Qed.

Lemma literal_tokens_app (a b : string) :
  literal_tokens (a +:+ b) = literal_tokens a ++ literal_tokens b.
Proof.
  induction a as [|c a IH]; [done|].
  rewrite str_app_cons. cbn [literal_tokens]. by rewrite IH.
Qed.

(** Literal tokens before a dot group into literal atoms. *)
Lemma group_literal (s : string) (rest : list Re.Token) :
  Re.group (literal_tokens s ++ Re.TDot :: rest)
  = app (literal s) <$> Re.group (Re.TDot :: rest).
Proof.
  induction s as [|c s IH].
  - cbn [literal_tokens literal app]. by destruct (Re.group _).
  - cbn [literal_tokens literal].
    change ((Re.TLit c :: literal_tokens s) ++ Re.TDot :: rest)
      with (Re.TLit c :: (literal_tokens s ++ Re.TDot :: rest)).
    assert (Hstep : Re.group
                      (Re.TLit c :: (literal_tokens s ++ Re.TDot :: rest))
                    = cons (Re.One (Re.Lit c))
                        <$> Re.group (literal_tokens s ++ Re.TDot :: rest)).
    { by destruct s. }
    rewrite Hstep, IH. by destruct (Re.group (Re.TDot :: rest)).
Qed.

(** The pattern of an output matcher compiles to: any characters, the
    marker and the package name taken literally, any characters. *)
Lemma compile_matcher (marker name : string) :
  plain marker = true ->
  Re.compile (".*" +:+ marker +:+ Re.escape name +:+ ".*")
  = Some (Re.Star Re.AnyChar :: literal (marker +:+ name)
            ++ [Re.Star Re.AnyChar]).
Proof.
  intros Hplain. unfold Re.compile.
  assert (Hlex : Re.lex (".*" +:+ marker +:+ Re.escape name +:+ ".*")
                 = Some ([Re.TDot; Re.TStar] ++ literal_tokens (marker +:+ name)
                           ++ [Re.TDot; Re.TStar])).
  { rewrite !str_app_cons, str_app_nil_l. cbn [Re.lex].
    change (Ascii.eqb "." "\") with false.
    change (Ascii.eqb "." ".") with true.
    change (Ascii.eqb "*" "\") with false.
    change (Ascii.eqb "*" ".") with false.
    change (Ascii.eqb "*" "*") with true. cbv iota.
    rewrite lex_plain by done. rewrite lex_escape.
    change (Re.lex ".*") with (Some [Re.TDot; Re.TStar]).
    cbn [fmap option_fmap option_map].
    by rewrite literal_tokens_app, <- app_assoc. }
  rewrite Hlex.
  change ([Re.TDot; Re.TStar] ++ literal_tokens (marker +:+ name)
            ++ [Re.TDot; Re.TStar])
    with (Re.TDot :: Re.TStar
            :: (literal_tokens (marker +:+ name) ++ Re.TDot :: [Re.TStar])).
  cbn [Re.group]. rewrite group_literal. reflexivity.
Qed.

Lemma match_star_unfold (a : Re.Atom) (r : Re.Regex) (s : string) :
  Re.match_here (Re.Star a :: r) s
  = Re.match_here r s
    || match s with
       | EmptyString => false
       | String c s' =>
           Re.atom_matches a c && Re.match_here (Re.Star a :: r) s'
       end.
Proof. by destruct s. Qed.

(** A literal text matches exactly the strings that start with it. *)
Lemma match_literal (lit : string) (r : Re.Regex) (s : string) :
  Re.match_here (literal lit ++ r) s = true
  <-> exists rest, s = lit +:+ rest /\ Re.match_here r rest = true.
Proof.
  revert s. induction lit as [|c lit IH]; intros s.
  - cbn [literal app]. split; [by exists s|]. by intros (rest & -> & H).
  - cbn [literal]. change ((Re.One (Re.Lit c) :: literal lit) ++ r)
      with (Re.One (Re.Lit c) :: (literal lit ++ r)).
    cbn [Re.match_here Re.atom_matches]. split.
    + destruct s as [|d s]; [done|]. intros H.
      apply andb_true_iff in H as [Hd H]. apply Ascii.eqb_eq in Hd as ->.
      apply IH in H as (rest & -> & H). by exists rest.
    + intros (rest & -> & H). rewrite str_app_cons.
      apply andb_true_iff. split; [apply Ascii.eqb_refl|].
      apply IH. by exists rest.
Qed.

(** [.*] in front matches any text without a newline. *)
Lemma match_any_star (r : Re.Regex) (s : string) :
  Re.match_here (Re.Star Re.AnyChar :: r) s = true
  <-> exists before rest,
        s = before +:+ rest /\ newline_free before = true
        /\ Re.match_here r rest = true.
Proof.
  split.
  - induction s as [|c s IH]; rewrite match_star_unfold; intros H;
      apply orb_true_iff in H as [H|H].
    + by exists EmptyString, EmptyString.
    + done.
    + by exists EmptyString, (String c s).
    + apply andb_true_iff in H as [Hc H].
      destruct (IH H) as (before & rest & -> & Hfree & Hr).
      exists (String c before), rest. split; [done|]. split; [|done].
      cbn [newline_free]. cbn [Re.atom_matches] in Hc. by rewrite Hc.
  - intros (before & rest & -> & Hfree & Hr).
    induction before as [|c before IH]; rewrite match_star_unfold.
    + rewrite str_app_nil_l, Hr. done.
    + cbn [newline_free] in Hfree. apply andb_true_iff in Hfree as [Hc Hfree].
      rewrite str_app_cons. cbn [Re.atom_matches]. rewrite Hc, IH by done.
      by rewrite orb_true_r.
Qed.

(** What the output matchers decide: the marker followed by the package
    name occurs in the output, with no newline before it. *)
Lemma matcher_occurs (marker name output : string) :
  plain marker = true ->
  (exists b,
     Re.re_match (".*" +:+ marker +:+ Re.escape name +:+ ".*") output
     = Some b)
  /\ (Re.re_match (".*" +:+ marker +:+ Re.escape name +:+ ".*") output
      = Some true
      <-> exists before rest,
            output = before +:+ marker +:+ name +:+ rest
            /\ newline_free before = true).
Proof.
  intros Hplain. unfold Re.re_match. rewrite compile_matcher by done.
  split; [by eexists|].
  set (r := literal (marker +:+ name) ++ [Re.Star Re.AnyChar]).
  assert (Hiff : Re.match_here (Re.Star Re.AnyChar :: r) output = true
                 <-> exists before rest,
                       output = before +:+ marker +:+ name +:+ rest
                       /\ newline_free before = true).
  { rewrite match_any_star. unfold r. split.
    - intros (before & rest & -> & Hfree & H).
      apply match_literal in H as (rest' & -> & _).
      exists before, rest'. by rewrite str_app_assoc.
    - intros (before & rest & -> & Hfree).
      exists before, (marker +:+ name +:+ rest).
      split; [done|]. split; [done|].
      apply match_literal. exists rest. split; [by rewrite str_app_assoc|].
      by rewrite match_star_unfold. }
  split.
  - intros [= H]. apply Hiff. exact H.
  - intros H. f_equal. apply Hiff. exact H.
Qed.

(** C7, amended: [match_package_installed] always decides, and it
    reports a match iff the text [Installing : <name>], with the name
    taken literally, occurs in the output with no newline before it; the
    text need not stand at the start.  For the name [foo] it reports a
    match for [Installing : foo-1.0] and for [Installing : foobar-1.0]. *)
Theorem match_package_installed_occurs (name output : string) :
  (exists b, match_package_installed name output = Some b)
  /\ (match_package_installed name output = Some true
      <-> exists before rest,
            output = before +:+ "Installing : " +:+ name +:+ rest
            /\ newline_free before = true)
  /\ match_package_installed "foo" "Installing : foo-1.0" = Some true
  /\ match_package_installed "foo" "Installing : foobar-1.0" = Some true.
Proof.
  pose proof (matcher_occurs "Installing : " name output eq_refl)
    as [Hdecides Hiff].
  split; [exact Hdecides|]. split; [exact Hiff|]. by split.
Qed.

(** C7 as first stated, with the text at the start of the line, does not
    hold: with two spaces before the text, as yum prints it, the matcher
    still reports a match. *)
Lemma match_package_installed_not_anchored :
  match_package_installed "foo" "  Installing : foo-1.0" = Some true
  /\ ~ (exists rest, "  Installing : foo-1.0" = "Installing : foo" +:+ rest).
Proof.
  split; [reflexivity|]. intros [rest H]. discriminate H.
Qed.

(** ** Concrete runs *)

(** Deleting [a] and [b] where only [a] is installed: two queries, then
    one removal of [a]. *)
Example delete_a_b_run :
  process_delete_requests only_a_installed false
    (example_machine [] ["a"; "b"] [] [])
  = (Returned tt,
     {| self := example_instance [] [] [] [];
        trace :=
          [CommandRun ["chroot"; "/build/root"; "rpm"; "-q"; "a"] None;
           CommandRun ["chroot"; "/build/root"; "rpm"; "-q"; "b"]
             (Some "package is not installed");
           CommandCall
             ["chroot"; "/build/root"; "rpm"; "-e"; "--nodeps";
              "--allmatches"; "--noscripts"; "a"] ∅ None] |}).
Proof. reflexivity. Qed.

(** A bootstrap install of the package [x] with the collection [grp]. *)
Example bootstrap_x_grp_run :
  trace (after (process_install_requests_bootstrap working_world)
           (after (request_collection "grp")
              (example_machine [] ["x"] [] [])))
  = [PathWhich "yum-deprecated" None X_OK None;
     CommandRun ["yum"; "-y"; "makecache"] None;
     CommandCall
       ["bash"; "-c";
        "yum -y --installroot /build/root install x && "
        +:+ "yum -y --installroot /build/root groupinstall "
        +:+ dquote +:+ "grp" +:+ dquote] ∅ None].
Proof. reflexivity. Qed.

(** C1 as first stated, for calls that raise as well, does not hold:
    with no requested package installed, [process_delete_requests] raises
    the request error and the package list still holds the request. *)
Lemma queues_kept_when_delete_raises :
  fst (process failing_world (Delete false)
         (requests [RequestPackage "a"] (example_machine [] [] [] [])))
  = Raised (KiwiRequestError none_installed)
  /\ package_requests
       (self (snd (process failing_world (Delete false)
                     (requests [RequestPackage "a"]
                        (example_machine [] [] [] [])))))
     = ["a"]
  /\ ~ queues_empty
         (self (snd (process failing_world (Delete false)
                       (requests [RequestPackage "a"]
                          (example_machine [] [] [] []))))).
Proof.
  split; [reflexivity|]. split; [reflexivity|].
  intros [H _]. discriminate H.
Qed.

(** C6 as first stated, for all custom arguments, does not hold: when
    they hold the flag twice from the start, [process_only_required]
    leaves both, and [process_plus_recommended] removes one per call, so
    that calling it twice differs from calling it once. *)
Lemma strong_flag_twice :
  strong_count
    (custom_args (self (after process_only_required twice_strong))) = 2
  /\ custom_args (self (after process_plus_recommended twice_strong))
     = [strong_flag]
  /\ custom_args
       (self (after process_plus_recommended
                (after process_plus_recommended twice_strong)))
     = []
  /\ after process_plus_recommended
       (after process_plus_recommended twice_strong)
     <> after process_plus_recommended twice_strong.
Proof.
  split; [reflexivity|]. split; [reflexivity|]. split; [reflexivity|].
  intros H. apply (f_equal (fun m => length (custom_args (self m)))) in H.
  discriminate H.
Qed.

(** C2 on a request to delete [b] and [c] where only [a] is installed. *)
Lemma delete_none_installed_witness :
  fst (process_delete_requests only_a_installed false
         (example_machine [] ["b"; "c"] [] []))
  = Raised (KiwiRequestError none_installed)
  /\ self (snd (process_delete_requests only_a_installed false
                  (example_machine [] ["b"; "c"] [] [])))
     = example_instance [] ["b"; "c"] [] [].
Proof.
  destruct (delete_none_installed only_a_installed false
              (example_machine [] ["b"; "c"] [] [])
              (snd (process_delete_requests only_a_installed false
                      (example_machine [] ["b"; "c"] [] [])))
              (fst (process_delete_requests only_a_installed false
                      (example_machine [] ["b"; "c"] [] [])))
              [CommandRun (query_command "/build/root" "b")
                 (Some "package is not installed");
               CommandRun (query_command "/build/root" "c")
                 (Some "package is not installed")]
              eq_refl eq_refl) as (Hout & _ & _ & Hself).
  - intros e He. apply list_elem_of_In in He. simpl in He.
    destruct He as [<-|[<-|[]]]; reflexivity.
  - split; [exact Hout|exact Hself].
Defined.


(** C8 on the collection [base] and the package [x]: the run of a
    bootstrap install whose steps succeed. *)
Lemma collection_quoted_in_groupinstall_witness :
  collection_requests
    (self (after (request_collection "base")
             (example_machine [] ["x"] [] [])))
  = [dquote +:+ "base" +:+ dquote]
  /\ trace
       (snd (process_install_requests_bootstrap working_world
               (after (request_collection "base")
                  (example_machine [] ["x"] [] []))))
     = [PathWhich "yum-deprecated" None X_OK None;
        CommandRun ["yum"; "-y"; "makecache"] None;
        CommandCall
          ["bash"; "-c";
           "yum -y --installroot /build/root install x && "
           +:+ "yum -y --installroot /build/root groupinstall "
           +:+ dquote +:+ "base" +:+ dquote] ∅ None].
Proof.
  destruct (collection_quoted_in_groupinstall working_world "base"
              (example_machine [] ["x"] [] [])
              (after (request_collection "base")
                 (example_machine [] ["x"] [] [])))
    as [Hstored Hcmd].
  split; [exact Hstored|].
  destruct (Hcmd eq_refl) as [Hbootstrap _].
  exact (Hbootstrap eq_refl).
Defined.

(** C6 on an object built with the custom argument [--nogpgcheck]. *)
Lemma strong_flag_at_most_once_witness :
  strong_count ["--nogpgcheck"] <= 1
  /\ custom_args
       (self (after process_only_required
                (after process_only_required
                   (example_machine ["--nogpgcheck"] [] [] []))))
     = ["--nogpgcheck"; strong_flag]
  /\ strong_count
       (custom_args
          (self (invoke_all working_world
                   [CallOnlyRequired; CallRequest (RequestExclusion "pkgX");
                    CallProcess Install; CallOnlyRequired;
                    CallPlusRecommended; CallOnlyRequired]
                   (example_machine ["--nogpgcheck"] [] [] []))))
     <= 1.
Proof.
  assert (Hle : strong_count ["--nogpgcheck"] <= 1) by (vm_compute; lia).
  destruct (strong_flag_at_most_once working_world
              [CallOnlyRequired; CallRequest (RequestExclusion "pkgX");
               CallProcess Install; CallOnlyRequired;
               CallPlusRecommended; CallOnlyRequired]
              (example_machine ["--nogpgcheck"] [] [] []) Hle)
    as (_ & _ & Hidem & _ & _ & _ & _ & Hall).
  split; [exact Hle|]. split; [|exact Hall].
  rewrite Hidem. reflexivity.
Defined.

(** An exclusion requested before the first chroot install is still on
    the command line of the second one, whose own request lists hold only
    the package [y]. *)
Example exclusion_in_second_install :
  last (trace
          (after (process_install_requests working_world)
             (after (request_package "y")
                (after (process_install_requests working_world)
                   (after (request_package_exclusion "pkgX")
                      (example_machine [] ["x"] [] []))))))
  = Some (CommandCall
            ["bash"; "-c";
             "chroot /build/root yum -y --exclude=pkgX install y"] ∅ None).
Proof. reflexivity. Qed.

(** The binary found below the root is preferred. *)
Example resolve_below_root :
  _get_yum_binary_name only_a_installed (Some "/build/root")
    (example_machine [] [] [] [])
  = (Returned "yum-deprecated",
     {| self := example_instance [] [] [] [];
        trace :=
          [PathWhich "yum-deprecated"
             (Some {[ "PATH" := "/build/root/usr/bin" ]}) X_OK
             (Some "/usr/bin/yum-deprecated")] |}).
Proof. reflexivity. Qed.

(** ** Upgrading and the consistency check *)

Section Maintenance.

Context {Handle : Type} (w : World Handle).

Lemma last_two {A} (t : list A) (a b : A) : last (t ++ [a; b]) = Some b.
Proof.
  replace (t ++ [a; b]) with ((t ++ [a]) ++ [b]) by (by rewrite <- app_assoc).
  apply last_snoc.
Qed.

Lemma update_exec (m : Machine) :
  update w m =
    let o := self m in
    let env := yum_search_env (Some (root_dir o)) in
    let found := path_which w (trace m) "yum-deprecated" env X_OK in
    let t1 := trace m ++ [PathWhich "yum-deprecated" env X_OK found] in
    let cmd :=
      ["chroot"; root_dir o; binary_for found] ++ move_to_root w (yum_args o)
        ++ custom_args o ++ ["upgrade"] in
    match command_call w t1 cmd (command_env o) with
    | Done h =>
        (Returned h,
         {| self := o;
            trace := t1 ++ [CommandCall cmd (command_env o) None] |})
    | Failed msg =>
        (Raised (CommandFailure msg),
         {| self := o;
            trace := t1 ++ [CommandCall cmd (command_env o) (Some msg)] |})
    end.
Proof.
  unfold update.
  unfold bind at 1. unfold get at 1. cbn.
  unfold bind at 1. rewrite resolve_run. cbn.
  unfold bind, get, Command_call. cbn.
  by destruct (command_call w _ _ _) as [h|msg].
Qed.

(** The last event of [update] is its command. *)
Lemma update_last (m : Machine) :
  exists found failure,
    last (trace (snd (update w m)))
    = Some (CommandCall
              (["chroot"; root_dir (self m); binary_for found]
                 ++ move_to_root w (yum_args (self m))
                 ++ custom_args (self m) ++ ["upgrade"])
              (command_env (self m)) failure).
Proof.
  rewrite update_exec. cbn zeta. eexists.
  destruct (command_call w _ _ _) as [h|msg]; cbn; eexists; apply last_snoc.
Qed.

(** X1: [update] asks the probe for the binary below the root and then
    executes one command, [chroot <root_dir> <binary> <moved yum_args>
    <custom_args> upgrade], with the command environment.  It returns or
    raises as that command does, and it leaves the object alone: the
    request lists are neither read nor emptied. *)
Theorem update_one_command (m : Machine) :
  let o := self m in
  exists found failure,
    found = path_which w (trace m) "yum-deprecated"
              (yum_search_env (Some (root_dir o))) X_OK
    /\ trace (snd (update w m))
       = trace m ++
         [PathWhich "yum-deprecated" (yum_search_env (Some (root_dir o)))
            X_OK found;
          CommandCall
            (["chroot"; root_dir o; binary_for found]
               ++ move_to_root w (yum_args o) ++ custom_args o ++ ["upgrade"])
            (command_env o) failure]
    /\ self (snd (update w m)) = o
    /\ match failure with
       | None => exists h, fst (update w m) = Returned h
       | Some msg => fst (update w m) = Raised (CommandFailure msg)
       end.
Proof.
  intros o. rewrite update_exec. cbn zeta. fold o.
  eexists. destruct (command_call w _ _ _) as [h|msg]; cbn.
  - exists None. rewrite <- !app_assoc. repeat split; eauto.
  - exists (Some msg). rewrite <- !app_assoc. repeat split; eauto.
Qed.

(** X2: the custom arguments given to [post_init] reach the command line
    of [update] as they are, between the moved yum arguments of the
    runtime configuration and the verb; for [None] and for the empty list
    nothing stands there.  The command environment is the one of the
    runtime configuration, and [post_init] keeps the request lists and
    the root directory. *)
Theorem post_init_reaches_update (args : option (list string))
    (o : Instance) (t : Trace) :
  let m := {| self := post_init args o; trace := t |} in
  (exists found failure,
     last (trace (snd (update w m)))
     = Some (CommandCall
               (["chroot"; root_dir o; binary_for found]
                  ++ move_to_root w (rc_yum_args (repository o))
                  ++ default [] args ++ ["upgrade"])
               (rc_command_env (repository o)) failure))
  /\ same_queues o (post_init args o)
  /\ root_dir (post_init args o) = root_dir o
  /\ post_init None o = post_init (Some []) o.
Proof.
  intros m.
  assert (Hc : custom_args (post_init args o) = default [] args).
  { unfold post_init. by destruct args as [[|x l]|]. }
  assert (Hy : yum_args (post_init args o) = rc_yum_args (repository o)).
  { unfold post_init. by destruct args as [[|x l]|]. }
  assert (He : command_env (post_init args o) = rc_command_env (repository o)).
  { unfold post_init. by destruct args as [[|x l]|]. }
  assert (Hr : root_dir (post_init args o) = root_dir o).
  { unfold post_init. by destruct args as [[|x l]|]. }
  split.
  { destruct (update_last m) as (found & failure & Ht).
    exists found, failure. rewrite Ht.
    change (self m) with (post_init args o). by rewrite Hc, Hy, He, Hr. }
  split; [unfold post_init; by destruct args as [[|x l]|]|].
  split; [exact Hr|reflexivity].
Qed.

Lemma database_consistent_exec (m : Machine) :
  database_consistent w m =
    let cmd := ["chroot"; root_dir (self m); "rpmdb"; "--initdb"] in
    let a := command_run w (trace m) cmd in
    (Returned (match a with Done _ => true | Failed _ => false end),
     log (CommandRun cmd (failure_of a)) m).
Proof.
  unfold database_consistent, try_except, bind, get, Command_run. cbn.
  by destruct (command_run w _ _) as [[]|msg].
Qed.

(** X3: [database_consistent] runs [chroot <root_dir> rpmdb --initdb]
    and nothing else, and leaves the object as it was.  It returns [True]
    when the command succeeded, and [False] when the command failed: the
    exception [Command.run] raises for a failed command, an [Exception],
    is caught and never reaches the caller.  (What is no [Exception], an
    interrupt, is outside this model.) *)
Theorem database_consistent_swallows_failure (m : Machine) :
  let cmd := ["chroot"; root_dir (self m); "rpmdb"; "--initdb"] in
  database_consistent w m
  = (Returned
       (match command_run w (trace m) cmd with
        | Done _ => true
        | Failed _ => false
        end),
     {| self := self m;
        trace := trace m ++
          [CommandRun cmd (failure_of (command_run w (trace m) cmd))] |}).
Proof.
  intros cmd. rewrite database_consistent_exec. reflexivity.
Qed.

End Maintenance.

(** ** The chroot install and the exclusions *)

Section Exclusions.

Context {Handle : Type} (w : World Handle).

(** X4: a chroot install asks the probe for the binary below the root,
    appends one [--exclude=<name>] per exclusion request to the custom
    arguments, and then does two steps, each with the answer the world
    gives.  The first is [chroot <root_dir> rpm --rebuilddb]; when it
    fails the call raises its failure and nothing else is executed.  When
    it succeeds the request lists are emptied and the second step is
    executed: [bash -c <shell>] with the command environment, where
    [<shell>] is the install command, followed by [ && chroot <root_dir>
    <binary> <moved yum_args> <custom_args> groupinstall <collections>]
    when some collection is requested; the call returns or raises as that
    command does. *)
Theorem chroot_install_two_steps (m : Machine) :
  let o := self m in
  let env := yum_search_env (Some (root_dir o)) in
  let found := path_which w (trace m) "yum-deprecated" env X_OK in
  let yum := binary_for found in
  let probe := PathWhich "yum-deprecated" env X_OK found in
  let rebuild := ["chroot"; root_dir o; "rpm"; "--rebuilddb"] in
  let custom :=
    custom_args o
      ++ map (fun name => "--exclude=" +:+ name) (exclude_requests o) in
  let install :=
    join " " (["chroot"; root_dir o; yum] ++ move_to_root w (yum_args o)
                ++ custom ++ ["install"] ++ package_requests o) in
  let groupinstall :=
    join " " (["chroot"; root_dir o; yum] ++ move_to_root w (yum_args o)
                ++ custom ++ ["groupinstall"] ++ collection_requests o) in
  let shell :=
    match collection_requests o with
    | [] => install
    | _ :: _ => install +:+ " && " +:+ groupinstall
    end in
  let cmd := ["bash"; "-c"; shell] in
  process_install_requests w m =
    match command_run w (trace m ++ [probe]) rebuild with
    | Failed msg =>
        (Raised (CommandFailure msg),
         {| self := set_custom_args custom o;
            trace := trace m ++ [probe; CommandRun rebuild (Some msg)] |})
    | Done _ =>
        match
          command_call w (trace m ++ [probe; CommandRun rebuild None]) cmd
            (command_env o)
        with
        | Done h =>
            (Returned h,
             {| self := emptied (set_custom_args custom o);
                trace := trace m ++
                  [probe; CommandRun rebuild None;
                   CommandCall cmd (command_env o) None] |})
        | Failed msg =>
            (Raised (CommandFailure msg),
             {| self := emptied (set_custom_args custom o);
                trace := trace m ++
                  [probe; CommandRun rebuild None;
                   CommandCall cmd (command_env o) (Some msg)] |})
        end
    end.
Proof. exact (install_exec w m). Qed.

(** X5: when the database rebuild of a chroot install fails, the call
    raises that failure with the request lists intact, but the
    [--exclude] tokens are already among the custom arguments; a second
    install then appends the same tokens once more. *)
Theorem rebuild_failure_keeps_exclusions (m : Machine) (cmd : list string)
    (msg : string) :
  last (trace (snd (process_install_requests w m)))
    = Some (CommandRun cmd (Some msg)) ->
  let tokens :=
    map (fun name => "--exclude=" +:+ name) (exclude_requests (self m)) in
  let m1 := snd (process_install_requests w m) in
  fst (process_install_requests w m) = Raised (CommandFailure msg)
  /\ same_queues (self m) (self m1)
  /\ custom_args (self m1) = custom_args (self m) ++ tokens
  /\ custom_args (self (snd (process_install_requests w m1)))
     = custom_args (self m) ++ tokens ++ tokens.
Proof.
  intros Hlast tokens m1.
  assert (Hcustom : forall m0,
            exists o', self (snd (process_install_requests w m0)) = o'
              /\ custom_args o'
                 = custom_args (self m0)
                   ++ map exclude_token (exclude_requests (self m0))).
  { intros m0. eexists. split; [reflexivity|]. rewrite install_run. cbn zeta.
    destruct (command_run w _ _) as [[]|msg0]; cbn [snd self]; [|done].
    by destruct (command_call w _ _ _) as [h|msg0]. }
  assert (H1 : fst (process_install_requests w m) = Raised (CommandFailure msg)
               /\ self m1 = add_exclusions (self m)).
  { unfold m1. revert Hlast. rewrite install_run. cbn zeta.
    destruct (command_run w _ _) as [[]|msg0]; cbn.
    - destruct (command_call w _ _ _) as [h|msg0]; cbn;
        rewrite last_snoc; discriminate.
    - rewrite last_snoc. by intros [= <- <-]. }
  destruct H1 as [Hout Hself].
  split; [exact Hout|]. rewrite Hself. split; [done|]. split; [done|].
  destruct (Hcustom m1) as (o' & <- & ->). rewrite Hself. cbn.
  by rewrite <- app_assoc.
Qed.

(** X6: a chroot install that executed its shell command has appended
    each exclusion token once and emptied the request lists, so that a
    second install right after it adds nothing to the custom arguments. *)
Theorem install_appends_exclusions_once (m : Machine) (cmd : list string)
    (env : Env) (failure : option string) :
  last (trace (snd (process_install_requests w m)))
    = Some (CommandCall cmd env failure) ->
  let m1 := snd (process_install_requests w m) in
  custom_args (self m1)
    = custom_args (self m)
      ++ map (fun name => "--exclude=" +:+ name) (exclude_requests (self m))
  /\ queues_empty (self m1)
  /\ custom_args (self (snd (process_install_requests w m1)))
     = custom_args (self m1).
Proof.
  intros Hlast m1.
  assert (Hself : self m1 = emptied (add_exclusions (self m))).
  { unfold m1. revert Hlast. rewrite install_run. cbn zeta.
    destruct (command_run w _ _) as [[]|msg0]; cbn.
    - by destruct (command_call w _ _ _) as [h|msg0].
    - rewrite last_snoc. discriminate. }
  rewrite Hself. split; [done|]. split; [done|].
  rewrite install_run. cbn zeta.
  destruct (command_run w _ _) as [[]|msg0]; cbn [snd self].
  - destruct (command_call w _ _ _) as [h|msg0]; cbn [snd self];
      rewrite Hself; cbn; by rewrite app_nil_r.
  - rewrite Hself. cbn. by rewrite app_nil_r.
Qed.

(** X7: the bootstrap install does not look at the exclusion requests:
    with an exclusion requested before it, it returns or raises the same
    and executes the same commands as without, and adds nothing to the
    custom arguments; once it executed its shell command the exclusion
    list is empty, so the request is gone. *)
Theorem bootstrap_drops_exclusions (name : string) (m : Machine) :
  let m' := after (request_package_exclusion name) m in
  fst (process_install_requests_bootstrap w m')
    = fst (process_install_requests_bootstrap w m)
  /\ trace (snd (process_install_requests_bootstrap w m'))
     = trace (snd (process_install_requests_bootstrap w m))
  /\ custom_args (self (snd (process_install_requests_bootstrap w m')))
     = custom_args (self m)
  /\ (forall cmd env failure,
        last (trace (snd (process_install_requests_bootstrap w m')))
          = Some (CommandCall cmd env failure) ->
        exclude_requests
          (self (snd (process_install_requests_bootstrap w m'))) = []).
Proof.
  intros m'. rewrite !bootstrap_run. cbn zeta.
  change (trace m') with (trace m).
  change (yum_args (self m')) with (yum_args (self m)).
  change (command_env (self m')) with (command_env (self m)).
  change (bootstrap_bash_command
            (binary_for (path_which w (trace m) "yum-deprecated" None X_OK))
            (self m'))
    with (bootstrap_bash_command
            (binary_for (path_which w (trace m) "yum-deprecated" None X_OK))
            (self m)).
  destruct (command_run w _ _) as [[]|msg]; cbn.
  - destruct (command_call w _ _ _) as [h|msg]; cbn; repeat split; done.
  - repeat split; try done. intros cmd env failure. rewrite last_snoc.
    discriminate.
Qed.

(** X8: an exclusion that went through a chroot install is on the
    command line of every later [update], whatever methods were called in
    between. *)
Theorem update_carries_exclusion (name : string) (rs : list Request)
    (cs : list Method) (m : Machine) :
  let m1 := requests rs (after (request_package_exclusion name) m) in
  let m2 := invoke_all w cs (after (process_install_requests w) m1) in
  exists cmd env failure,
    last (trace (snd (update w m2))) = Some (CommandCall cmd env failure)
    /\ "--exclude=" +:+ name ∈ cmd.
Proof.
  intros m1 m2.
  assert (H0 : name ∈ exclude_requests (self m1)).
  { apply requests_keep_exclusion. cbn. apply elem_of_app. right. left. }
  assert (H2 : exclude_token name ∈ custom_args (self m2)).
  { unfold m2. apply invoke_all_keeps.
    - intros a a'. apply (args_step_keeps_token name).
    - unfold after. rewrite install_run. cbn zeta.
      assert (H1 : exclude_token name
                     ∈ custom_args (add_exclusions (self m1))).
      { unfold add_exclusions. cbn [custom_args set_custom_args].
        apply elem_of_app. right.
        apply (list_elem_of_fmap_2 exclude_token) in H0. exact H0. }
      destruct (command_run w _ _) as [[]|msg]; cbn [snd self]; [|done].
      by destruct (command_call w _ _ _) as [h|msg]. }
  destruct (update_last w m2) as (found & failure & Ht).
  eexists _, _, failure. split; [exact Ht|].
  apply elem_of_app. right. apply elem_of_app. right.
  apply elem_of_app. by left.
Qed.

End Exclusions.

(** ** The request lists and the configuration *)

Section Queues.

Context {Handle : Type} (w : World Handle).

(** X9: requests accumulate in call order and nothing is dropped or
    merged: after a sequence of requests each list is the old list
    followed by the requested names of its kind, in order and with
    repetitions, the collections between double quotes; custom arguments
    and trace are as before. *)
Theorem requests_accumulate (rs : list Request) (m : Machine) :
  let m' := requests rs m in
  package_requests (self m')
    = package_requests (self m)
      ++ omap (fun r => match r with
                        | RequestPackage name => Some name
                        | _ => None
                        end) rs
  /\ collection_requests (self m')
     = collection_requests (self m)
       ++ omap (fun r => match r with
                         | RequestCollection name =>
                             Some (dquote +:+ name +:+ dquote)
                         | _ => None
                         end) rs
  /\ exclude_requests (self m')
     = exclude_requests (self m)
       ++ omap (fun r => match r with
                         | RequestExclusion name => Some name
                         | _ => None
                         end) rs
  /\ custom_args (self m') = custom_args (self m)
  /\ trace m' = trace m.
Proof.
  revert m. induction rs as [|r rs IH]; intros m.
  - cbn. by rewrite !app_nil_r.
  - cbn [requests fold_left]. cbn zeta in IH. unfold requests in IH.
    destruct (IH (after (request r) m)) as (Hp & Hc & He & Ha & Ht).
    rewrite Hp, Hc, He, Ha, Ht.
    destruct r; cbn; rewrite <- ?app_assoc; done.
Qed.

Lemma invoke_frame (c : Method) (m : Machine) :
  let o' := self (after (invoke w c) m) in
  root_dir o' = root_dir (self m) /\ yum_args o' = yum_args (self m)
  /\ command_env o' = command_env (self m)
  /\ repository o' = repository (self m).
Proof.
  destruct c as [r|name|p| | | | |version]; cbn [invoke].
  - by destruct r.
  - done.
  - rewrite void_after. unfold after.
    destruct p as [| |force]; cbn [process].
    + rewrite bootstrap_run. cbn zeta.
      destruct (command_run w _ _) as [[]|msg]; cbn; [|done].
      by destruct (command_call w _ _ _) as [h|msg].
    + rewrite install_run. cbn zeta.
      destruct (command_run w _ _) as [[]|msg]; cbn; [|done].
      by destruct (command_call w _ _ _) as [h|msg].
    + destruct (delete_run w force m) as (queries & _ & ->). cbn zeta.
      destruct (nonempty _); [|done].
      by destruct (command_call w _ _ _) as [h|msg].
  - by rewrite void_after, update_run.
  - unfold after. rewrite only_required_run. cbn [snd].
    by destruct (contains _ _).
  - unfold after. rewrite plus_recommended_run. cbn [snd].
    by destruct (list_remove _ _).
  - by rewrite void_after, database_consistent_run.
  - done.
Qed.

(** X10: no method changes the configuration of the object: after any
    sequence of method calls the root directory, the yum arguments, the
    command environment and the runtime configuration are the ones the
    object started with. *)
Theorem configuration_is_kept (cs : list Method) (m : Machine) :
  let o' := self (invoke_all w cs m) in
  root_dir o' = root_dir (self m) /\ yum_args o' = yum_args (self m)
  /\ command_env o' = command_env (self m)
  /\ repository o' = repository (self m).
Proof.
  revert m. induction cs as [|c cs IH]; intros m; [done|].
  cbn [invoke_all fold_left]. cbn zeta in IH. unfold invoke_all in IH.
  destruct (IH (after (invoke w c) m)) as (H1 & H2 & H3 & H4).
  destruct (invoke_frame c m) as (F1 & F2 & F3 & F4).
  rewrite H1, H2, H3, H4. done.
Qed.


(** X12: with no package requested, [process_delete_requests] raises the
    request error at once: it executes no command, not even a query, and
    changes nothing. *)
Theorem delete_with_nothing_requested (force : bool) (m : Machine) :
  package_requests (self m) = [] ->
  process_delete_requests w force m
  = (Raised (KiwiRequestError none_installed), m).
Proof.
  intros H. unfold process_delete_requests.
  unfold bind at 1. unfold get at 1. cbn. rewrite H. cbn.
  unfold raise. reflexivity.
Qed.

End Queues.

(** ** More on the output matchers *)

(** X13: [match_package_deleted] always decides, and it reports a match
    iff the text [Removing: <name>], with the name taken literally,
    occurs in the output with no newline before it. *)
Theorem match_package_deleted_occurs (name output : string) :
  (exists b, match_package_deleted name output = Some b)
  /\ (match_package_deleted name output = Some true
      <-> exists before rest,
            output = before +:+ "Removing: " +:+ name +:+ rest
            /\ newline_free before = true).
Proof. exact (matcher_occurs "Removing: " name output eq_refl). Qed.

(** A matcher that accepts an output for a longer name accepts it for
    every name the longer one starts with. *)
Lemma matcher_accepts_prefix (marker name suffix output : string) :
  plain marker = true ->
  Re.re_match (".*" +:+ marker +:+ Re.escape (name +:+ suffix) +:+ ".*")
    output = Some true ->
  Re.re_match (".*" +:+ marker +:+ Re.escape name +:+ ".*") output
  = Some true.
Proof.
  intros Hplain H.
  apply (matcher_occurs marker (name +:+ suffix) output Hplain) in H
    as (before & rest & -> & Hfree).
  apply (matcher_occurs marker name _ Hplain).
  exists before, (suffix +:+ rest). by rewrite !str_app_assoc.
Qed.

(** X14: the false positives of the matchers: an output line about the
    package [<name><suffix>] is also taken for one about the package
    [<name>], by [match_package_installed] and by
    [match_package_deleted]. *)
Theorem matchers_accept_name_prefix (name suffix output : string) :
  (match_package_installed (name +:+ suffix) output = Some true ->
   match_package_installed name output = Some true)
  /\ (match_package_deleted (name +:+ suffix) output = Some true ->
      match_package_deleted name output = Some true).
Proof.
  split; by apply matcher_accepts_prefix.
Qed.

Lemma newline_free_app (a b : string) :
  newline_free (a +:+ b) = newline_free a && newline_free b.
Proof.
  induction a as [|c a IH]; [done|].
  rewrite str_app_cons. cbn [newline_free]. by rewrite IH, andb_assoc.
Qed.

(** A text without newline that starts a string whose first line is
    [first] lies within that line. *)
Lemma within_first_line (x rest first more : string) :
  newline_free x = true ->
  x +:+ rest = first +:+ String Re.newline more ->
  exists rest', first = x +:+ rest'.
Proof.
  revert first. induction x as [|c x IH]; intros first Hx Heq.
  - by exists first.
  - cbn [newline_free] in Hx. apply andb_true_iff in Hx as [Hc Hx].
    destruct first as [|d first].
    + rewrite str_app_cons, str_app_nil_l in Heq. injection Heq as -> _.
      by rewrite Ascii.eqb_refl in Hc.
    + rewrite !str_app_cons in Heq. injection Heq as -> Heq.
      destruct (IH first Hx Heq) as [rest' ->]. by exists rest'.
Qed.

Lemma matcher_first_line (marker name first more : string) :
  plain marker = true -> newline_free marker = true ->
  newline_free name = true ->
  Re.re_match (".*" +:+ marker +:+ Re.escape name +:+ ".*")
    (first +:+ String Re.newline more)
  = Re.re_match (".*" +:+ marker +:+ Re.escape name +:+ ".*") first.
Proof.
  intros Hplain Hmarker Hname.
  destruct (matcher_occurs marker name (first +:+ String Re.newline more)
              Hplain) as [[b1 H1] Hiff1].
  destruct (matcher_occurs marker name first Hplain) as [[b2 H2] Hiff2].
  rewrite H1, H2. f_equal.
  assert (Hiff : b1 = true <-> b2 = true).
  { split; intros ->.
    - apply Hiff1 in H1 as (before & rest & Heq & Hfree).
      rewrite H2 in Hiff2. symmetry in Heq.
      rewrite <- !str_app_assoc in Heq.
      apply within_first_line in Heq as [rest' ->].
      + assert (Hb : Some b2 = Some true).
        { apply Hiff2. exists before, rest'. by rewrite !str_app_assoc. }
        by injection Hb.
      + by rewrite !newline_free_app, Hfree, Hmarker, Hname.
    - apply Hiff2 in H2 as (before & rest & -> & Hfree).
      rewrite H1 in Hiff1.
      assert (Hb : Some b1 = Some true).
      { apply Hiff1. exists before, (rest +:+ String Re.newline more).
        by rewrite !str_app_assoc. }
      by injection Hb. }
  destruct b1, b2; try done.
  - symmetry. by apply Hiff.
  - by apply Hiff.
Qed.

(** X15: the matchers look at the first line only: for a package name
    without newline, whatever follows the first newline of the output
    does not change the answer. *)
Theorem matchers_read_first_line (name first more : string) :
  newline_free name = true ->
  match_package_installed name (first +:+ String Re.newline more)
    = match_package_installed name first
  /\ match_package_deleted name (first +:+ String Re.newline more)
     = match_package_deleted name first.
Proof.
  intros Hname. split; by apply matcher_first_line.
Qed.

(** ** The policy flag and the custom arguments on the command lines *)

Section CommandLines.

Context {Handle : Type} (w : World Handle).

Lemma bootstrap_command_has_custom (x yum : string) (o : Instance) :
  x ∈ custom_args o -> x ∈ bootstrap_bash_command yum o.
Proof.
  intros H. unfold bootstrap_bash_command.
  assert (Hin : x ∈ [yum] ++ yum_args o ++ ["--installroot"; root_dir o]
                      ++ custom_args o ++ ["install"] ++ package_requests o).
  { apply elem_of_app. right. apply elem_of_app. right.
    apply elem_of_app. right. apply elem_of_app. by left. }
  destruct (nonempty _); [|done]. apply elem_of_app. by left.
Qed.

(** X16: after [process_only_required] the strong-requires flag is among
    the custom arguments, whatever they were, and it is a token of the
    shell command of the next bootstrap or chroot install and of the
    command of the next [update]. *)
Theorem strong_flag_reaches_commands (m : Machine) :
  let m1 := after process_only_required m in
  strong_flag ∈ custom_args (self m1)
  /\ (forall p cmd env failure,
        p = Bootstrap \/ p = Install ->
        last (trace (snd (process w p m1)))
          = Some (CommandCall cmd env failure) ->
        exists tokens,
          cmd = ["bash"; "-c"; join " " tokens] /\ strong_flag ∈ tokens)
  /\ (exists cmd env failure,
        last (trace (snd (update w m1))) = Some (CommandCall cmd env failure)
        /\ strong_flag ∈ cmd).
Proof.
  intros m1.
  assert (Hin : strong_flag ∈ custom_args (self m1)).
  { unfold m1, after. rewrite only_required_run. cbn [snd]. unfold contains.
    destruct (bool_decide_reflect (strong_flag ∈ custom_args (self m)));
      [done|].
    cbn. apply elem_of_app. right. left. }
  split; [exact Hin|]. split.
  - intros p cmd env failure [-> | ->] Hlast; cbn [process] in Hlast.
    + apply bootstrap_last in Hlast as [found ->].
      eexists. split; [reflexivity|]. by apply bootstrap_command_has_custom.
    + apply install_last in Hlast as [found ->].
      eexists. split; [reflexivity|]. apply chroot_command_has_custom.
      unfold add_exclusions. cbn. apply elem_of_app. by left.
  - destruct (update_last w m1) as (found & failure & Ht).
    eexists _, _, failure. split; [exact Ht|].
    apply elem_of_app. right. apply elem_of_app. right.
    apply elem_of_app. by left.
Qed.

Lemma delete_scan (force : bool) (m : Machine) :
  process_delete_requests w force m =
    let o := self m in
    let r := scan w (root_dir o) (trace m) (package_requests o) [] in
    if nonempty (snd r) then
      let cmd :=
        ["chroot"; root_dir o; "rpm"; "-e"] ++ delete_options ++ snd r in
      match command_call w (fst r) cmd (command_env o) with
      | Done h =>
          (Returned h,
           {| self := emptied o;
              trace := fst r ++ [CommandCall cmd (command_env o) None] |})
      | Failed msg =>
          (Raised (CommandFailure msg),
           {| self := emptied o;
              trace := fst r ++ [CommandCall cmd (command_env o) (Some msg)] |})
      end
    else
      (Raised (KiwiRequestError none_installed),
       {| self := o; trace := fst r |}).
Proof.
  unfold process_delete_requests.
  unfold bind at 1. unfold get at 1. cbn.
  unfold bind at 1. rewrite (scan_run w (root_dir (self m))) by done.
  cbn. destruct (snd (scan w _ _ _ _)) as [|p ps]; cbn; [done|].
  unfold bind, cleanup_requests, modify, get, Command_call. cbn.
  by destruct (command_call w _ _ _) as [h|msg].
Qed.

(** X17: the removal uses neither the custom arguments nor the yum
    arguments: with other values for them [process_delete_requests]
    returns or raises the same and executes the same commands. *)
Theorem delete_ignores_arguments (force : bool) (custom yum : list string)
    (m : Machine) :
  let m' :=
    on_self (fun o => set_runtime yum (command_env o)
                        (set_custom_args custom o)) m in
  fst (process_delete_requests w force m')
    = fst (process_delete_requests w force m)
  /\ trace (snd (process_delete_requests w force m'))
     = trace (snd (process_delete_requests w force m)).
Proof.
  intros m'. rewrite !delete_scan. cbn zeta.
  change (trace m') with (trace m).
  change (package_requests (self m')) with (package_requests (self m)).
  change (root_dir (self m')) with (root_dir (self m)).
  change (command_env (self m')) with (command_env (self m)).
  destruct (nonempty _); [|done].
  by destruct (command_call w _ _ _) as [h|msg].
Qed.

End CommandLines.

(** ** The further properties on concrete runs *)

(** X5 and X6 on an object with the custom argument [-v], the package
    [x] and the exclusion [pkgX]. *)
Lemma rebuild_failure_keeps_exclusions_witness :
  fst (process_install_requests failing_world
         (example_machine ["-v"] ["x"] [] ["pkgX"]))
  = Raised (CommandFailure "exit status 1")
  /\ custom_args
       (self (snd (process_install_requests failing_world
                     (snd (process_install_requests failing_world
                             (example_machine ["-v"] ["x"] [] ["pkgX"]))))))
     = ["-v"; "--exclude=pkgX"; "--exclude=pkgX"].
Proof.
  destruct (rebuild_failure_keeps_exclusions failing_world
              (example_machine ["-v"] ["x"] [] ["pkgX"])
              ["chroot"; "/build/root"; "rpm"; "--rebuilddb"]
              "exit status 1" eq_refl) as (Hout & _ & _ & Htwice).
  split; [exact Hout|exact Htwice].
Defined.

Lemma install_appends_exclusions_once_witness :
  custom_args
    (self (snd (process_install_requests working_world
                  (example_machine ["-v"] ["x"] [] ["pkgX"]))))
  = ["-v"; "--exclude=pkgX"]
  /\ custom_args
       (self (snd (process_install_requests working_world
                     (snd (process_install_requests working_world
                             (example_machine ["-v"] ["x"] [] ["pkgX"]))))))
     = ["-v"; "--exclude=pkgX"].
Proof.
  destruct (install_appends_exclusions_once working_world
              (example_machine ["-v"] ["x"] [] ["pkgX"])
              ["bash"; "-c";
               "chroot /build/root yum -y -v --exclude=pkgX install x"]
              ∅ None eq_refl) as (Honce & _ & Hstable).
  split; [exact Honce|]. rewrite Hstable. exact Honce.
Defined.


(** X12 on an object that holds a collection request only. *)
Lemma delete_with_nothing_requested_witness :
  process_delete_requests failing_world true
    (example_machine [] [] ["grp"] [])
  = (Raised (KiwiRequestError none_installed),
     example_machine [] [] ["grp"] []).
Proof.
  exact (delete_with_nothing_requested failing_world true
           (example_machine [] [] ["grp"] []) eq_refl).
Defined.

(** X14 on the packages [foo] and [foobar]. *)
Lemma matchers_accept_name_prefix_witness :
  match_package_installed "foobar" "  Installing : foobar-1.0" = Some true
  /\ match_package_installed "foo" "  Installing : foobar-1.0" = Some true.
Proof.
  split; [reflexivity|].
  exact (proj1 (matchers_accept_name_prefix "foo" "bar"
                  "  Installing : foobar-1.0") eq_refl).
Defined.

(** X15 on an output of two lines. *)
Lemma matchers_read_first_line_witness :
  newline_free "foo" = true
  /\ match_package_installed "foo"
       ("Resolving" +:+ String Re.newline "Installing : foo-1.0")
     = match_package_installed "foo" "Resolving".
Proof.
  split; [reflexivity|].
  exact (proj1 (matchers_read_first_line "foo" "Resolving"
                  "Installing : foo-1.0" eq_refl)).
Defined.
